(** * DeepScores to COCO annotation conversion: [src/conversion/annotations.py]

    A shallow embedding of the annotation module (RLE encoder, mask
    extractor, binary mask generator and the annotation generator loop)
    together with the properties its specification states about it.

    Conventions of the embedding.
    - A two-dimensional numpy array is a record of its [shape] and of its
      rows ([data], in index order, the way [arr[i][j]] reads it).
    - Python [int]s are [Z]; lengths and shapes are [nat].
    - Python [float]s are binary64 values, Rocq's primitive [float].
    - [dict]s are [gmap]s, the training [set] is a [gset].
    - An exception aborts the run: fallible code returns a [result]. *)

From Stdlib Require Import ZArith List Sorted Lia Bool Ascii String Floats QArith Qround.
From stdpp Require Import base option list strings gmap.
Import ListNotations.

#[local] Open Scope Z_scope.

(** ** numpy arrays of rank two *)

Record ndarray (A : Type) : Type := mk_ndarray {
  shape : nat * nat;          (* (height, width) *)
  data  : list (list A)       (* the rows *)
}.
Arguments mk_ndarray {A} _ _.
Arguments shape {A} _.
Arguments data {A} _.

Definition height {A} (m : ndarray A) : nat := fst (shape m).
Definition width {A} (m : ndarray A) : nat := snd (shape m).

(** The rows agree with the recorded shape. Every array numpy builds
    satisfies this. *)
Definition wf_array {A} (m : ndarray A) : Prop :=
  length (data m) = height m /\
  Forall (fun row => length row = width m) (data m).

(** [column j rows]: the entries [rows[0][j], rows[1][j], ...]. *)
Definition column {A} (j : nat) (rows : list (list A)) : list A :=
  flat_map (fun row => match nth_error row j with
                       | Some x => [x]
                       | None => []
                       end) rows.

(** [m.ravel(order='F')]: the entries in column-major order, down each
    column, the columns left to right. *)
Definition ravel_F {A} (m : ndarray A) : list A :=
  flat_map (fun j => column j (data m)) (seq 0 (width m)).

(** ** [itertools.groupby] and [enumerate] *)

(** Consecutive equal elements are collected in one group, keyed by their
    common value. *)
Fixpoint groupby (l : list Z) : list (Z * list Z) :=
  match l with
  | [] => []
  | x :: l' =>
      match groupby l' with
      | (k, g) :: rest =>
          if x =? k then (x, x :: g) :: rest
          else (x, [x]) :: (k, g) :: rest
      | [] => [(x, [x])]
      end
  end.

Fixpoint enumerate_from {A} (i : nat) (l : list A) : list (nat * A) :=
  match l with
  | [] => []
  | x :: l' => (i, x) :: enumerate_from (S i) l'
  end.

Definition enumerate {A} (l : list A) : list (nat * A) := enumerate_from 0 l.

(** ** [binary_mask_to_rle] *)

Record rle : Type := mk_rle {
  counts : list nat;
  size   : list nat
}.

(** One turn of the [for] loop: [counts] is the list built so far. *)
Definition rle_step (counts : list nat) (it : nat * (Z * list Z)) : list nat :=
  let '(i, (value, elements)) := it in
  let counts :=
    if Nat.eqb i 0 && (value =? 1) then counts ++ [0%nat] else counts in
  counts ++ [length elements].

Definition binary_mask_to_rle (binary_mask : ndarray Z) : rle :=
  {| counts := fold_left rle_step (enumerate (groupby (ravel_F binary_mask))) [];
     size := [height binary_mask; width binary_mask] |}.

(** ** Exceptions *)

Inductive exn : Type :=
| KeyError (key : string)
| IndexError
| ValueError
| OverflowError.

Inductive result (A : Type) : Type :=
| Ok (a : A)
| Raise (e : exn).
Arguments Ok {A} _.
Arguments Raise {A} _.

#[global] Instance result_ret : MRet result := fun _ x => Ok x.
#[global] Instance result_bind : MBind result := fun _ _ f m =>
  match m with
  | Ok a => f a
  | Raise e => Raise e
  end.

(** [d[k]] on a [dict]. *)
Definition getitem (d : gmap string Z) (k : string) : result Z :=
  match d !! k with
  | Some v => Ok v
  | None => Raise (KeyError k)
  end.

(** [l[i]] on a [list], for the literal indices the module uses. *)
Definition list_getitem {A} (l : list A) (i : nat) : result A :=
  match nth_error l i with
  | Some x => Ok x
  | None => Raise IndexError
  end.

(** ** Python floats *)

(** The exact rational value of a finite binary64 number. *)
Definition SF2Q (x : spec_float) : Q :=
  match x with
  | S754_finite s m e =>
      let v := if s then Z.neg m else Z.pos m in
      match e with
      | Z0 => inject_Z v
      | Zpos p => inject_Z (v * 2 ^ Zpos p)
      | Zneg p => Qmake v (2 ^ p)
      end
  | _ => 0%Q
  end.

(** [math.floor] and [math.ceil] return the exact [int]; they raise
    [ValueError] on a NaN and [OverflowError] on an infinity. *)
Definition floor (x : float) : result Z :=
  match Prim2SF x with
  | S754_nan => Raise ValueError
  | S754_infinity _ => Raise OverflowError
  | sf => Ok (Qfloor (SF2Q sf))
  end.

Definition ceil (x : float) : result Z :=
  match Prim2SF x with
  | S754_nan => Raise ValueError
  | S754_infinity _ => Raise OverflowError
  | sf => Ok (Qceiling (SF2Q sf))
  end.

(** Nearest integer, ties to the even one. *)
Definition round_half_even (q : Q) : Z :=
  let f := Qfloor q in
  match Qcompare (q - inject_Z f) (1 # 2) with
  | Lt => f
  | Gt => f + 1
  | Eq => if Z.even f then f else f + 1
  end.

(** [round(x, ndigits)] on a float, for [0 <= ndigits]: the exact value of
    [x] is rounded to [ndigits] decimals (ties to even) and the decimal
    obtained is converted back to the nearest binary64 number; the sign of
    [x] is kept, NaN and the infinities are returned unchanged. *)
Definition round (x : float) (ndigits : nat) : float :=
  match Prim2SF x with
  | S754_finite s m e =>
      let scale := 10 ^ Z.of_nat ndigits in
      match round_half_even (SF2Q (S754_finite false m e) * inject_Z scale) with
      | Zpos k =>
          SF2Prim (SFdiv prec emax (S754_finite s k 0)
                         (S754_finite false (Z.to_pos scale) 0))
      | _ => SF2Prim (S754_zero s)
      end
  | _ => x
  end.

(** ** Basic slicing *)

(** How a slice bound [i] is adjusted to a dimension of length [n]: a
    negative bound counts from the end, and the result is cut to [0..n]. *)
Definition adjust_index (i : Z) (n : nat) : nat :=
  if i <? 0 then Z.to_nat (Z.max 0 (i + Z.of_nat n))
  else Z.to_nat (Z.min i (Z.of_nat n)).

(** [m[ymin:ymax, xmin:xmax]] *)
Definition getitem_slice2 {A} (m : ndarray A) (ymin ymax xmin xmax : Z)
  : ndarray A :=
  let r0 := adjust_index ymin (height m) in
  let r1 := adjust_index ymax (height m) in
  let c0 := adjust_index xmin (width m) in
  let c1 := adjust_index xmax (width m) in
  {| shape := ((r1 - r0)%nat, (c1 - c0)%nat);
     data := map (fun row => firstn (c1 - c0) (skipn c0 row))
                 (firstn (r1 - r0) (skipn r0 (data m))) |}.

(** ** [extract_area_inside_bbox] *)

(** [np.asfortranarray] changes the memory layout only, not the entries. *)
Definition extract_area_inside_bbox (bbox : list float)
    (segmentation_mask : ndarray Z) : result (ndarray Z) :=
  b0 ← list_getitem bbox 0;
  xmin ← floor b0;
  b1 ← list_getitem bbox 1;
  ymin ← floor b1;
  b0 ← list_getitem bbox 0;
  b2 ← list_getitem bbox 2;
  xmax ← ceil (b0 + b2)%float;
  b1 ← list_getitem bbox 1;
  b3 ← list_getitem bbox 3;
  ymax ← ceil (b1 + b3)%float;
  let extracted_mask := getitem_slice2 segmentation_mask ymin ymax xmin xmax in
  Ok extracted_mask.

(** ** [generate_binary_mask] *)

(** [arr == c], entry by entry. *)
Definition np_eq (arr : ndarray Z) (c : Z) : ndarray bool :=
  {| shape := shape arr; data := map (map (fun v => v =? c)) (data arr) |}.

Definition astype_uint8 (arr : ndarray bool) : ndarray Z :=
  {| shape := shape arr;
     data := map (map (fun b : bool => if b then 1 else 0)) (data arr) |}.

Definition count_nonzero (arr : ndarray bool) : nat :=
  length (filter (fun b : bool => b = true) (concat (data arr))).

Definition generate_binary_mask (seg_mask : ndarray Z) (category_code : Z)
  : ndarray Z * nat :=
  let bin_mask := np_eq seg_mask category_code in
  (astype_uint8 bin_mask, count_nonzero bin_mask).

(** ** [generate_annotations] *)

(** One [<object>] element of an XML annotation file: its [name] and the
    four entries of its [bndbox], each already read with [float(...)]. *)
Record xml_object : Type := mk_object {
  obj_name : string;
  bnd_xmin : float;
  bnd_ymin : float;
  bnd_xmax : float;
  bnd_ymax : float
}.

(** One entry of [listdir(xml_annotations_dir)]: the file's name, what
    [ET.parse] reads from it ([size/width], [size/height] as floats, the
    objects in document order) and the array [Image.open] loads from the
    segmentation image of the same name. Reading the files is not modelled:
    the files are taken as they were read. *)
Record xml_file : Type := mk_file {
  file_name : string;
  size_width : float;
  size_height : float;
  objects : list xml_object;
  seg_array : ndarray Z
}.

(** The dictionary appended to an annotation list. *)
Record annotation : Type := mk_annotation {
  ann_segmentation : rle;
  ann_area : nat;
  ann_iscrowd : Z;
  ann_image_id : Z;
  ann_bbox : list float;
  ann_category_id : Z;
  ann_id : Z
}.

(** The local variables the two loops update. *)
Record gen_state : Type := mk_state {
  train_annotation_list : list annotation;
  test_annotation_list : list annotation;
  counter : Z
}.

(** [s.split(sep)[0]]: the part of [s] before the first [sep]. *)
Fixpoint split_head (sep : ascii) (s : string) : string :=
  match s with
  | EmptyString => EmptyString
  | String c s' =>
      if Ascii.eqb c sep then EmptyString else String c (split_head sep s')
  end.

(** The monadic left fold that a [for] loop with a fallible body is. *)
Fixpoint for_each {S A} (body : S -> A -> result S) (st : S) (l : list A)
  : result S :=
  match l with
  | [] => Ok st
  | x :: l' => st' ← body st x; for_each body st' l'
  end.

Section generate_annotations.

Variable category_lookup : gmap string Z.
Variable img_lookup : gmap string Z.
(** [class_colors[name]] after the [int(...)] around it. *)
Variable class_colors : gmap string Z.
Variable train_set : gset string.

(** The body of [for obj in root.iter('object')]. *)
Definition object_body (img_name : string) (seg_array : ndarray Z)
    (w h : float) (st : gen_state) (obj : xml_object) : result gen_state :=
  let name := obj_name obj in
  if decide (name ≠ "brace") then
    let xmin := (bnd_xmin obj * w)%float in
    let ymin := (bnd_ymin obj * h)%float in
    let width := (bnd_xmax obj * w - xmin)%float in
    let height := (bnd_ymax obj * h - ymin)%float in
    let bbox := [xmin; ymin; round width 8; round height 8] in
    category_id ← getitem category_lookup name;
    extracted_seg ← extract_area_inside_bbox bbox seg_array;
    class_color ← getitem class_colors name;
    let '(bin_mask, area) := generate_binary_mask extracted_seg class_color in
    let rle_segmentation := binary_mask_to_rle bin_mask in
    if decide (img_name ∈ train_set) then
      image_id ← getitem img_lookup img_name;
      Ok {| train_annotation_list :=
              train_annotation_list st ++
                [{| ann_segmentation := rle_segmentation;
                    ann_area := area;
                    ann_iscrowd := 0;
                    ann_image_id := image_id;
                    ann_bbox := bbox;
                    ann_category_id := category_id;
                    ann_id := counter st |}];
            test_annotation_list := test_annotation_list st;
            counter := counter st + 1 |}
    else
      image_id ← getitem img_lookup img_name;
      Ok {| train_annotation_list := train_annotation_list st;
            test_annotation_list :=
              test_annotation_list st ++
                [{| ann_segmentation := rle_segmentation;
                    ann_area := area;
                    ann_iscrowd := 0;
                    ann_image_id := image_id;
                    ann_bbox := bbox;
                    ann_category_id := category_id;
                    ann_id := counter st |}];
            counter := counter st + 1 |}
  else Ok st.

(** The body of [for file_name in file_list]. The progress line printed
    every fifty files is left out, and the reads of lines 112-123 (opening
    the image, parsing the XML, its [size] element and the two floats) are
    taken to have succeeded: a run of the model stands for a run in which
    none of them raised. *)
Definition file_body (st : gen_state) (f : xml_file) : result gen_state :=
  let img_name := split_head "." (file_name f) in
  let seg_array := seg_array f in
  let w := size_width f in
  let h := size_height f in
  for_each (object_body img_name seg_array w h) st (objects f).

Definition generate_annotations (file_list : list xml_file)
  : result (list annotation * list annotation) :=
  st ← for_each file_body
         {| train_annotation_list := [];
            test_annotation_list := [];
            counter := 1 |} file_list;
  Ok (train_annotation_list st, test_annotation_list st).

End generate_annotations.

(** ** Vocabulary of the specification *)

(** A mask is binary when every entry is 0 (background) or 1 (foreground). *)
Definition bit (v : Z) : Prop := v = 0 \/ v = 1.
Definition binary (m : ndarray Z) : Prop := Forall (Forall bit) (data m).

(** Replaying [counts] as runs that alternate between [v] and [1 - v],
    the first run being of [v]. *)
Fixpoint replay (v : Z) (counts : list nat) : list Z :=
  match counts with
  | [] => []
  | c :: cs => repeat v c ++ replay (1 - v) cs
  end.

(** The [h] x [w] grid whose column-major traversal is [flat]. *)
Definition unravel_F (h w : nat) (flat : list Z) : ndarray Z :=
  {| shape := (h, w);
     data := map (fun i => map (fun j => nth (j * h + i) flat 0) (seq 0 w))
                 (seq 0 h) |}.

(** The decoder of the specification: the counts are replayed as
    alternating background/foreground runs, background first, in
    column-major order over a grid of the recorded size. *)
Definition rle_decode (r : rle) : option (ndarray Z) :=
  match size r with
  | [h; w] => Some (unravel_F h w (replay 0 (counts r)))
  | _ => None
  end.

(** A list of runs [(value, length)] and the sequence it stands for. *)
Definition expand (runs : list (Z * nat)) : list Z :=
  flat_map (fun r => repeat (fst r) (snd r)) runs.

(** The runs are maximal: none is empty and neighbours differ in value. *)
Fixpoint maximal_runs (runs : list (Z * nat)) : Prop :=
  match runs with
  | [] => True
  | r :: rest =>
      (0 < snd r)%nat /\
      match rest with
      | [] => True
      | r' :: _ => fst r <> fst r'
      end /\ maximal_runs rest
  end.

(** The values [0, 1, 0, 1, ...] from position [k] on. *)
Fixpoint alternating_from (k : nat) (vs : list Z) : Prop :=
  match vs with
  | [] => True
  | v :: vs' => v = Z.of_nat (k mod 2) /\ alternating_from (S k) vs'
  end.

(** The zero the encoder's loop appends before the first run, and the
    runs it then goes through. *)
Definition leading_zero (l : list Z) : list nat :=
  match l with
  | 1 :: _ => [0%nat]
  | _ => []
  end.

Definition runs_of (l : list Z) : list (Z * nat) :=
  map (fun g => (fst g, length (snd g))) (groupby l).

Definition run_lengths (l : list Z) : list nat :=
  map (fun g => length (snd g)) (groupby l).

(** The mask whose entry at row [i], column [j] is [f i j]. *)
Definition mask_of (h w : nat) (f : nat -> nat -> Z) : ndarray Z :=
  {| shape := (h, w);
     data := map (fun i => map (fun j => f i j) (seq 0 w)) (seq 0 h) |}.

Definition all_zero (h w : nat) : ndarray Z := mask_of h w (fun _ _ => 0).
Definition all_one (h w : nat) : ndarray Z := mask_of h w (fun _ _ => 1).
Definition single_pixel (h w i0 j0 : nat) : ndarray Z :=
  mask_of h w (fun i j => if Nat.eqb i i0 && Nat.eqb j j0 then 1 else 0).
Definition checkerboard (h w : nat) : ndarray Z :=
  mask_of h w (fun i j => Z.of_nat ((i + j) mod 2)).

(** The crop of the specification: rows [y0..y1) and columns [x0..x1),
    an empty range when the upper bound is not above the lower one. *)
Definition crop {A} (m : ndarray A) (y0 y1 x0 x1 : nat) : ndarray A :=
  {| shape := ((y1 - y0)%nat, (x1 - x0)%nat);
     data := map (fun row => firstn (x1 - x0) (skipn x0 row))
                 (firstn (y1 - y0) (skipn y0 (data m))) |}.

(** A bound clamped to [0..n]. *)
Definition clamp (i : Z) (n : nat) : nat :=
  Z.to_nat (Z.max 0 (Z.min i (Z.of_nat n))).

(** The crop the specification asks for: the bounds clamped to
    [0, width] x [0, height] first. *)
Definition crop_clamped {A} (m : ndarray A) (y0 y1 x0 x1 : Z) : ndarray A :=
  crop m (clamp y0 (height m)) (clamp y1 (height m))
         (clamp x0 (width m)) (clamp x1 (width m)).

(** [l] lists the elements of [l1] and of [l2], each in its own order:
    an order in which the appends to two lists can have happened. *)
Inductive interleaving {A} : list A -> list A -> list A -> Prop :=
| interleaving_nil : interleaving [] [] []
| interleaving_left x l1 l2 l :
    interleaving l1 l2 l -> interleaving (x :: l1) l2 (x :: l)
| interleaving_right x l1 l2 l :
    interleaving l1 l2 l -> interleaving l1 (x :: l2) (x :: l).

(** The objects that are not skipped, in file-then-object order, each
    with the file it comes from. *)
Definition kept_objects (file_list : list xml_file)
  : list (xml_file * xml_object) :=
  flat_map (fun f => map (pair f)
                       (filter (fun o => obj_name o <> "brace") (objects f)))
           file_list.

(** A file without its "brace" objects. *)
Definition without_braces (f : xml_file) : xml_file :=
  {| file_name := file_name f;
     size_width := size_width f;
     size_height := size_height f;
     objects := filter (fun o => obj_name o <> "brace") (objects f);
     seg_array := seg_array f |}.

(** [m[i][j]], when the indices are in range. *)
Definition entry {A} (m : ndarray A) (i j : nat) : option A :=
  match nth_error (data m) i with
  | Some row => nth_error row j
  | None => None
  end.

(** The number of true (foreground) pixels of a binary mask. *)
Definition count_true (m : ndarray Z) : nat :=
  length (filter (fun v => v = 1) (concat (data m))).

(** What a slice bound stands for before it is cut to the dimension: a
    negative bound counts from the far end. *)
Definition from_end (i : Z) (n : nat) : Z :=
  if i <? 0 then i + Z.of_nat n else i.

(** The record the loop body builds for an object that is not skipped,
    [id] being the counter's value, and the state after the append. Both
    branches of the [if img_name in train_set] build the same record. *)
Definition annotation_of (category_lookup img_lookup class_colors : gmap string Z)
    (img_name : string) (seg_array : ndarray Z) (w h : float)
    (obj : xml_object) (id : Z) : result annotation :=
  let xmin := (bnd_xmin obj * w)%float in
  let ymin := (bnd_ymin obj * h)%float in
  let width := (bnd_xmax obj * w - xmin)%float in
  let height := (bnd_ymax obj * h - ymin)%float in
  let bbox := [xmin; ymin; round width 8; round height 8] in
  category_id ← getitem category_lookup (obj_name obj);
  extracted_seg ← extract_area_inside_bbox bbox seg_array;
  class_color ← getitem class_colors (obj_name obj);
  image_id ← getitem img_lookup img_name;
  Ok {| ann_segmentation :=
          binary_mask_to_rle (generate_binary_mask extracted_seg class_color).1;
        ann_area := (generate_binary_mask extracted_seg class_color).2;
        ann_iscrowd := 0;
        ann_image_id := image_id;
        ann_bbox := bbox;
        ann_category_id := category_id;
        ann_id := id |}.

Definition push_annotation (in_train : bool) (r : annotation) (st : gen_state)
  : gen_state :=
  if in_train then
    {| train_annotation_list := train_annotation_list st ++ [r];
       test_annotation_list := test_annotation_list st;
       counter := counter st + 1 |}
  else
    {| train_annotation_list := train_annotation_list st;
       test_annotation_list := test_annotation_list st ++ [r];
       counter := counter st + 1 |}.

(** [r] is the record created for the object [fo.2] of the file [fo.1]. *)
Definition created_by (category_lookup img_lookup class_colors : gmap string Z)
    (fo : xml_file * xml_object) (r : annotation) : Prop :=
  annotation_of category_lookup img_lookup class_colors
    (split_head "." (file_name fo.1)) (seg_array fo.1)
    (size_width fo.1) (size_height fo.1) fo.2 (ann_id r) = Ok r.

(** The records carry the ids [c], [c + 1], [c + 2], ... in this order. *)
Fixpoint ids_from (c : Z) (rs : list annotation) : Prop :=
  match rs with
  | [] => True
  | r :: rs' => ann_id r = c /\ ids_from (c + 1) rs'
  end.

(** What a stretch of the run appends to the two lists: the records
    [news], in the order of their creation, numbered from the counter on. *)
Definition adds (st st' : gen_state) (news : list annotation) : Prop :=
  exists tr te,
    train_annotation_list st' = train_annotation_list st ++ tr /\
    test_annotation_list st' = test_annotation_list st ++ te /\
    interleaving tr te news /\
    ids_from (counter st) news /\
    counter st' = counter st + Z.of_nat (length news).

(** ** Sample inputs *)

Definition ex_seg : ndarray Z :=
  mk_ndarray (4, 4)%nat [[0; 7; 7; 0]; [0; 7; 0; 0]; [9; 9; 0; 0]; [0; 0; 0; 3]].

Definition ex_files : list xml_file :=
  [ mk_file "a.xml" 4 4
      [ mk_object "note" 0.25 0 0.75 0.5;
        mk_object "brace" 0 0 1 1;
        mk_object "rest" 0 0.5 0.5 0.75 ] ex_seg;
    mk_file "b.xml" 4 4
      [ mk_object "note" 0.75 0.25 0.25 1 ] ex_seg ].

Definition ex_category_lookup : gmap string Z := {[ "note" := 10; "rest" := 20 ]}.
Definition ex_img_lookup : gmap string Z := {[ "a" := 100; "b" := 200 ]}.
Definition ex_class_colors : gmap string Z := {[ "note" := 7; "rest" := 9 ]}.
Definition ex_train_set : gset string := {[ "b" ]}.

Definition ex_mask : ndarray Z :=
  mk_ndarray (2, 4)%nat [[1; 2; 3; 4]; [5; 6; 7; 8]].

(** ** Further vocabulary *)

(** The number of entries equal to 1. *)
Definition count_ones (l : list Z) : nat :=
  length (filter (fun v => v = 1) l).

(** The sum of the counts that stand for foreground runs, [fg] telling
    whether the first count does: with [fg = false], the counts at the odd
    positions. *)
Fixpoint foreground_sum (fg : bool) (counts : list nat) : nat :=
  match counts with
  | [] => 0
  | c :: cs => ((if fg then c else 0) + foreground_sum (negb fg) cs)%nat
  end.

(** [x] is neither a NaN nor an infinity. *)
Definition is_finite (x : float) : bool :=
  match Prim2SF x with
  | S754_nan | S754_infinity _ => false
  | _ => true
  end.

(** The image name the generator derives from the name of a file. *)
Definition img_name_of (f : xml_file) : string :=
  split_head "." (file_name f).

(** [r] was created for an object, not named "brace", of a file of
    [file_list] whose image name is in the training set ([in_train]) or is
    not ([negb in_train]). *)
Definition created_in_split
    (category_lookup img_lookup class_colors : gmap string Z)
    (train_set : gset string) (file_list : list xml_file)
    (in_train : bool) (r : annotation) : Prop :=
  exists f o,
    In f file_list /\ In o (objects f) /\ obj_name o <> "brace" /\
    created_by category_lookup img_lookup class_colors (f, o) r /\
    bool_decide (img_name_of f ∈ train_set) = in_train.

(** The counts the encoder can produce: none is zero but possibly the
    first, and a first zero is followed by a further count. *)
Definition canonical (counts : list nat) : Prop :=
  match counts with
  | [] => True
  | c :: cs => Forall (fun k => (0 < k)%nat) cs /\ (c = 0%nat -> cs <> [])
  end.

(** * Properties *)

(** ** The RLE encoder *)

Section rle_encoder.

Lemma groupby_cons x l :
  exists g rest, groupby (x :: l) = (x, x :: g) :: rest.
Proof.
  simpl. destruct (groupby l) as [|[k g] rest]; [by eexists _, _|].
  destruct (x =? k); by eexists _, _.
Qed.

Lemma fold_rle_step gs : forall i acc,
  fold_left rle_step (enumerate_from i gs) acc =
  acc ++ (match i, gs with
          | O, (1, _) :: _ => [0%nat]
          | _, _ => []
          end) ++ map (fun g => length (snd g)) gs.
Proof.
  induction gs as [|[v els] gs IH]; intros i acc; simpl.
  - destruct i; by rewrite app_nil_r.
  - rewrite IH. destruct i as [|i]; simpl.
    + destruct (Z.eqb_spec v 1) as [->|Hv]; simpl.
      * by rewrite <- !app_assoc.
      * rewrite <- !app_assoc. simpl.
        destruct v as [|[p|p|]|p]; simpl; try done.
    + by rewrite <- !app_assoc.
Qed.

Lemma counts_binary_mask_to_rle m :
  counts (binary_mask_to_rle m) =
  leading_zero (ravel_F m) ++ run_lengths (ravel_F m).
Proof.
  unfold binary_mask_to_rle, enumerate, run_lengths. simpl.
  rewrite fold_rle_step. simpl. f_equal.
  destruct (ravel_F m) as [|x l]; [done|].
  destruct (groupby_cons x l) as (g & rest & ->).
  unfold leading_zero. destruct x as [|[p|p|]|p]; done.
Qed.

Lemma groupby_nonempty l : Forall (fun g => (0 < length (snd g))%nat) (groupby l).
Proof.
  induction l as [|x l IH]; simpl; [constructor|].
  destruct (groupby l) as [|[k g] rest]; simpl.
  - repeat constructor.
  - inversion IH; subst. destruct (x =? k); repeat constructor; simpl in *; try lia; done.
Qed.

Lemma concat_groupby l : concat (map snd (groupby l)) = l.
Proof.
  induction l as [|x l IH]; simpl; [done|].
  destruct (groupby l) as [|[k g] rest]; simpl in *.
  - by rewrite <- IH.
  - destruct (x =? k); simpl; by rewrite <- IH.
Qed.

Lemma length_run_lengths l : sum_list (run_lengths l) = length l.
Proof.
  unfold run_lengths. rewrite <- (concat_groupby l) at 2.
  induction (groupby l) as [|g gs IH]; simpl; [done|].
  rewrite length_app. by rewrite IH.
Qed.

Lemma expand_runs_of l : expand (runs_of l) = l.
Proof.
  unfold expand, runs_of.
  induction l as [|x l IH]; simpl; [done|].
  destruct (groupby l) as [|[k g] rest]; simpl in *; [by rewrite <- IH|].
  destruct (Z.eqb_spec x k) as [->|Hx]; simpl; by rewrite <- IH.
Qed.

Lemma maximal_runs_of l : maximal_runs (runs_of l).
Proof.
  unfold runs_of.
  induction l as [|x l IH]; simpl; [done|].
  destruct (groupby l) as [|[k g] rest]; simpl in *.
  - repeat split; lia.
  - destruct (Z.eqb_spec x k) as [->|Hx]; simpl.
    + destruct IH as (H1 & H2 & H3).
      split; [lia | split; [exact H2 | exact H3]].
    + split; [lia | split; [exact Hx | exact IH]].
Qed.

End rle_encoder.

(** ** Column-major traversal *)

Section column_major.

Context {A : Type}.
Implicit Types (rows : list (list A)) (row : list A).

Lemma column_cons j row rows x :
  nth_error row j = Some x -> column j (row :: rows) = x :: column j rows.
Proof. intros H. unfold column. simpl. by rewrite H. Qed.

Lemma length_column w rows j :
  Forall (fun row => length row = w) rows -> (j < w)%nat ->
  length (column j rows) = length rows.
Proof.
  intros Hrows Hj. induction Hrows as [|row rows Hrow _ IH]; [done|].
  destruct (nth_error row j) as [x|] eqn:Hx.
  - rewrite (column_cons _ _ _ _ Hx). simpl. by rewrite IH.
  - apply nth_error_None in Hx. lia.
Qed.

Lemma nth_column w rows j i (d : A) :
  Forall (fun row => length row = w) rows -> (j < w)%nat ->
  nth i (column j rows) d = nth j (nth i rows []) d.
Proof.
  intros Hrows Hj. revert i.
  induction Hrows as [|row rows Hrow _ IH]; intros i.
  - by destruct i, j.
  - destruct (nth_error row j) as [x|] eqn:Hx.
    + rewrite (column_cons _ _ _ _ Hx). destruct i as [|i]; simpl.
      * symmetry. by apply nth_error_nth.
      * apply IH.
    + apply nth_error_None in Hx. lia.
Qed.

Lemma length_flat_map_seq (f : nat -> list A) h w s :
  (forall k, (s <= k < s + w)%nat -> length (f k) = h) ->
  length (flat_map f (seq s w)) = (w * h)%nat.
Proof.
  revert s. induction w as [|w IH]; intros s Hf; simpl; [done|].
  rewrite length_app, IH, Hf by (intros; try apply Hf; lia). done.
Qed.

Lemma nth_flat_map_seq (f : nat -> list A) h w s j i (d : A) :
  (forall k, (s <= k < s + w)%nat -> length (f k) = h) ->
  (j < w)%nat -> (i < h)%nat ->
  nth (j * h + i) (flat_map f (seq s w)) d = nth i (f (s + j)%nat) d.
Proof.
  revert s j. induction w as [|w IH]; intros s j Hf Hj Hi; [lia|].
  simpl. destruct j as [|j].
  - rewrite app_nth1 by (rewrite Hf; lia). by rewrite Nat.add_0_r.
  - rewrite app_nth2 by (rewrite Hf; lia).
    rewrite Hf by lia.
    replace (S j * h + i - h)%nat with (j * h + i)%nat by lia.
    rewrite IH by (intros; try apply Hf; lia).
    f_equal. f_equal. lia.
Qed.

Lemma map_nth_seq (l : list A) (d : A) n :
  length l = n -> map (fun i => nth i l d) (seq 0 n) = l.
Proof.
  intros <-. induction l as [|x l IH]; [done|].
  simpl. f_equal. rewrite <- seq_shift, map_map. exact IH.
Qed.

Lemma length_ravel_F (m : ndarray A) :
  wf_array m -> length (ravel_F m) = (height m * width m)%nat.
Proof.
  intros [Hh Hw]. unfold ravel_F.
  rewrite (length_flat_map_seq _ (height m)).
  - lia.
  - intros k Hk. rewrite (length_column (width m)); [done|done|lia].
Qed.

End column_major.

Lemma unravel_ravel_F (m : ndarray Z) :
  wf_array m -> unravel_F (height m) (width m) (ravel_F m) = m.
Proof.
  destruct m as [[h w] rows]. unfold wf_array, unravel_F, ravel_F, height, width.
  simpl. intros [Hh Hw]. f_equal.
  etrans; [|exact (map_nth_seq rows [] h Hh)].
  apply map_ext_in. intros i Hi. apply in_seq in Hi.
  assert (Hlen : length (nth i rows []) = w).
  { rewrite List.Forall_forall in Hw. apply Hw, nth_In. lia. }
  etrans; [|exact (map_nth_seq (nth i rows []) 0 w Hlen)].
  apply map_ext_in. intros j Hj. apply in_seq in Hj.
  rewrite (nth_flat_map_seq _ h w 0 j i 0); try lia.
  - simpl. by apply nth_column with (w := w); [|lia].
  - intros k Hk. rewrite (length_column w); [done|done|lia].
Qed.

(** ** Replaying the counts *)

Section replaying.

Lemma groupby_step x l :
  groupby (x :: l) =
  match groupby l with
  | (k, g) :: rest =>
      if x =? k then (x, x :: g) :: rest else (x, [x]) :: (k, g) :: rest
  | [] => [(x, [x])]
  end.
Proof. reflexivity. Qed.

Lemma replay_run_lengths l : forall x,
  Forall bit (x :: l) -> replay x (run_lengths (x :: l)) = x :: l.
Proof.
  unfold run_lengths.
  induction l as [|y l IH]; intros x Hbits; [done|].
  inversion Hbits as [|? ? Hx Hrest]; subst.
  specialize (IH y Hrest).
  destruct (groupby_cons y l) as (g & rest & Hg).
  rewrite groupby_step, Hg. rewrite Hg in IH. simpl in IH.
  destruct (Z.eqb_spec x y) as [->|Hxy]; simpl.
  - f_equal. exact IH.
  - f_equal. replace (1 - x) with y; [exact IH|].
    inversion Hrest as [|? ? Hy _]; subst.
    destruct Hx as [-> | ->], Hy as [-> | ->]; done.
Qed.

Lemma replay_counts l :
  Forall bit l -> replay 0 (leading_zero l ++ run_lengths l) = l.
Proof.
  intros Hbits. destruct l as [|x l]; [done|].
  pose proof (replay_run_lengths l x Hbits) as Hr.
  inversion Hbits as [|? ? [-> | ->] _]; subst; simpl; exact Hr.
Qed.

Lemma alternating_runs_of l : forall x k,
  Forall bit (x :: l) -> x = Z.of_nat (k mod 2) ->
  alternating_from k (map fst (runs_of (x :: l))).
Proof.
  unfold runs_of.
  induction l as [|y l IH]; intros x k Hbits Hx; [done|].
  inversion Hbits as [|? ? Hbx Hrest]; subst x.
  destruct (groupby_cons y l) as (g & rest & Hg).
  rewrite groupby_step, Hg.
  destruct (Z.eqb_spec (Z.of_nat (k mod 2)) y) as [Heq|Hne]; simpl.
  - specialize (IH y k Hrest (eq_sym Heq)). rewrite Hg in IH. simpl in IH.
    split; [done|]. apply IH.
  - split; [done|].
    assert (Hy : y = Z.of_nat (S k mod 2)).
    { inversion Hrest as [|? ? Hby _]; subst.
      replace (S k) with (1 + k)%nat by done.
      rewrite Nat.Div0.add_mod by done.
      pose proof (Nat.mod_upper_bound k 2).
      destruct (k mod 2)%nat as [|[|r]]; simpl in *;
        destruct Hby as [-> | ->]; try done; lia. }
    specialize (IH y (S k) Hrest Hy). rewrite Hg in IH. exact IH.
Qed.

Lemma ravel_F_bits (m : ndarray Z) : binary m -> Forall bit (ravel_F m).
Proof.
  intros Hbin. unfold ravel_F, column.
  apply List.Forall_flat_map, List.Forall_forall. intros j _.
  apply List.Forall_flat_map.
  eapply List.Forall_impl; [|exact Hbin]. intros row Hrow.
  destruct (nth_error row j) as [x|] eqn:Hx; [|constructor].
  constructor; [|constructor].
  rewrite List.Forall_forall in Hrow. eapply Hrow, nth_error_In, Hx.
Qed.

Lemma rle_decode_encode (m : ndarray Z) :
  wf_array m -> binary m -> rle_decode (binary_mask_to_rle m) = Some m.
Proof.
  intros Hwf Hbin. unfold rle_decode.
  rewrite counts_binary_mask_to_rle. simpl.
  rewrite replay_counts by by apply ravel_F_bits.
  by rewrite unravel_ravel_F.
Qed.

Lemma wf_mask_of h w f : wf_array (mask_of h w f).
Proof.
  split; simpl.
  - by rewrite length_map, length_seq.
  - apply List.Forall_forall. intros row Hrow.
    apply in_map_iff in Hrow as (i & <- & _).
    by rewrite length_map, length_seq.
Qed.

Lemma binary_mask_of h w f :
  (forall i j, bit (f i j)) -> binary (mask_of h w f).
Proof.
  intros Hf. unfold binary. simpl.
  apply List.Forall_forall. intros row Hrow.
  apply in_map_iff in Hrow as (i & <- & _).
  apply List.Forall_forall. intros v Hv.
  apply in_map_iff in Hv as (j & <- & _). apply Hf.
Qed.

End replaying.

(** ** What the specification states about the encoder *)

Lemma run_lengths_positive l : Forall (fun c => (0 < c)%nat) (run_lengths l).
Proof.
  unfold run_lengths. apply List.Forall_map. apply groupby_nonempty.
Qed.

Lemma leading_zero_spec l :
  (hd_error l = Some 1 /\ leading_zero l = [0%nat]) \/
  (hd_error l <> Some 1 /\ leading_zero l = []).
Proof.
  destruct l as [|x l]; [by right|].
  destruct (Z.eq_dec x 1) as [->|Hx]; [by left|right].
  split; [simpl; congruence|].
  unfold leading_zero. destruct x as [|[p|p|]|p]; done.
Qed.

Lemma map_snd_runs_of l : map snd (runs_of l) = run_lengths l.
Proof. unfold runs_of, run_lengths. by rewrite map_map. Qed.

(** C1. Decoding what the encoder produces, by replaying the counts as
    alternating background/foreground runs in column-major order over a
    grid of the recorded size, gives back the mask: for every binary mask
    whose rows agree with its shape. *)
Theorem rle_roundtrip (m : ndarray Z) :
  wf_array m -> binary m -> rle_decode (binary_mask_to_rle m) = Some m.
Proof. apply rle_decode_encode. Qed.

Lemma rle_roundtrip_witness :
  wf_array (checkerboard 3 4) /\ binary (checkerboard 3 4) /\
  rle_decode (binary_mask_to_rle (checkerboard 3 4)) = Some (checkerboard 3 4).
Proof.
  assert (Hwf : wf_array (checkerboard 3 4)).
  { split; [reflexivity | repeat constructor]. }
  assert (Hbin : binary (checkerboard 3 4)).
  { repeat constructor; (by left) || (by right). }
  exact (conj Hwf (conj Hbin (rle_roundtrip (checkerboard 3 4) Hwf Hbin))).
Defined.

(** The patterns the specification names, at every size. *)
Lemma rle_roundtrip_all_zero h w :
  rle_decode (binary_mask_to_rle (all_zero h w)) = Some (all_zero h w).
Proof.
  apply rle_decode_encode; [apply wf_mask_of | apply binary_mask_of].
  intros; by left.
Qed.

Lemma rle_roundtrip_all_one h w :
  rle_decode (binary_mask_to_rle (all_one h w)) = Some (all_one h w).
Proof.
  apply rle_decode_encode; [apply wf_mask_of | apply binary_mask_of].
  intros; by right.
Qed.

Lemma rle_roundtrip_single_pixel h w i0 j0 :
  rle_decode (binary_mask_to_rle (single_pixel h w i0 j0)) =
  Some (single_pixel h w i0 j0).
Proof.
  apply rle_decode_encode; [apply wf_mask_of | apply binary_mask_of].
  intros i j. destruct (Nat.eqb i i0 && Nat.eqb j j0); [by right | by left].
Qed.

Lemma rle_roundtrip_checkerboard h w :
  rle_decode (binary_mask_to_rle (checkerboard h w)) = Some (checkerboard h w).
Proof.
  apply rle_decode_encode; [apply wf_mask_of | apply binary_mask_of].
  intros i j. pose proof (Nat.mod_upper_bound (i + j) 2) as Hlt.
  destruct ((i + j) mod 2)%nat as [|[|r]]; [by left | by right | lia].
Qed.

(** C2. The counts are the lengths of the maximal runs of equal value of
    the column-major traversal, in order; the runs alternate between
    background and foreground with the first count standing for
    background, a zero being put in front exactly when the first pixel is
    foreground. The two examples of the specification are included. *)
Theorem binary_mask_to_rle_runs (m : ndarray Z) :
  binary m ->
  (exists runs : list (Z * nat),
     expand runs = ravel_F m /\ maximal_runs runs /\
     (hd_error (ravel_F m) = Some 1 ->
        counts (binary_mask_to_rle m) = 0%nat :: map snd runs /\
        alternating_from 1 (map fst runs)) /\
     (hd_error (ravel_F m) <> Some 1 ->
        counts (binary_mask_to_rle m) = map snd runs /\
        alternating_from 0 (map fst runs))) /\
  binary_mask_to_rle (mk_ndarray (2, 2)%nat [[1; 0]; [0; 0]]) =
    {| counts := [0; 1; 3]%nat; size := [2; 2]%nat |} /\
  binary_mask_to_rle (all_zero 4 4) =
    {| counts := [16]%nat; size := [4; 4]%nat |}.
Proof.
  intros Hbin. split; [|split; reflexivity].
  exists (runs_of (ravel_F m)).
  pose proof (ravel_F_bits m Hbin) as Hbits.
  rewrite counts_binary_mask_to_rle, map_snd_runs_of.
  split; [apply expand_runs_of|]. split; [apply maximal_runs_of|].
  destruct (ravel_F m) as [|x l] eqn:Hflat; [by split|].
  inversion Hbits as [|? ? Hx _]; subst.
  split; intros Hhd.
  - injection Hhd as ->. split; [done|]. by apply alternating_runs_of.
  - destruct Hx as [-> | ->]; [|done].
    split; [done|]. by apply alternating_runs_of.
Qed.

Lemma binary_mask_to_rle_runs_witness :
  binary (mk_ndarray (2, 3)%nat [[0; 1; 1]; [0; 0; 1]]) /\
  exists runs : list (Z * nat),
    expand runs = [0; 0; 1; 0; 1; 1] /\ maximal_runs runs /\
    counts (binary_mask_to_rle (mk_ndarray (2, 3)%nat [[0; 1; 1]; [0; 0; 1]]))
      = map snd runs.
Proof.
  assert (Hbin : binary (mk_ndarray (2, 3)%nat [[0; 1; 1]; [0; 0; 1]])).
  { repeat constructor; (by left) || (by right). }
  split; [exact Hbin|].
  destruct (binary_mask_to_rle_runs _ Hbin) as [(runs & He & Hm & _ & Hbg) _].
  exists runs. split; [exact He|]. split; [exact Hm|].
  apply Hbg. vm_compute. discriminate.
Defined.

(** C3. The counts add up to the number of pixels, [height * width], and
    the recorded size is the mask's shape. *)
Theorem sum_counts_binary_mask_to_rle (m : ndarray Z) :
  wf_array m ->
  sum_list (counts (binary_mask_to_rle m)) = (height m * width m)%nat /\
  size (binary_mask_to_rle m) = [height m; width m].
Proof.
  intros Hwf. split; [|done].
  rewrite counts_binary_mask_to_rle, sum_list_with_app, length_run_lengths.
  rewrite length_ravel_F by done.
  destruct (leading_zero_spec (ravel_F m)) as [[_ ->] | [_ ->]]; simpl; lia.
Qed.

Lemma sum_counts_binary_mask_to_rle_witness :
  wf_array (single_pixel 3 5 0 0) /\
  sum_list (counts (binary_mask_to_rle (single_pixel 3 5 0 0))) = 15%nat.
Proof.
  assert (Hwf : wf_array (single_pixel 3 5 0 0)).
  { split; [reflexivity | repeat constructor]. }
  split; [exact Hwf|].
  exact (proj1 (sum_counts_binary_mask_to_rle (single_pixel 3 5 0 0) Hwf)).
Defined.

(** C9. A zero occurs in the counts at index 0 only, and only as the
    leading background run put there because the first pixel (column-major)
    is foreground; every later count is strictly positive. *)
Theorem zero_count_only_leading (m : ndarray Z) (k c : nat) :
  nth_error (counts (binary_mask_to_rle m)) k = Some c ->
  ((0 < k)%nat -> (0 < c)%nat) /\
  (c = 0%nat -> k = 0%nat /\ hd_error (ravel_F m) = Some 1).
Proof.
  rewrite counts_binary_mask_to_rle. intros Hk.
  pose proof (run_lengths_positive (ravel_F m)) as Hpos.
  rewrite List.Forall_forall in Hpos.
  destruct (leading_zero_spec (ravel_F m)) as [[Hhd Hz] | [Hhd Hz]];
    rewrite Hz in Hk; simpl in Hk.
  - destruct k as [|k]; simpl in Hk.
    + injection Hk as <-. split; [lia | done].
    + apply nth_error_In, Hpos in Hk. split; [done | lia].
  - apply nth_error_In, Hpos in Hk. split; [done | lia].
Qed.

Lemma zero_count_only_leading_witness :
  nth_error (counts (binary_mask_to_rle (single_pixel 2 2 0 0))) 0 = Some 0%nat /\
  hd_error (ravel_F (single_pixel 2 2 0 0)) = Some 1.
Proof.
  assert (H0 : nth_error (counts (binary_mask_to_rle (single_pixel 2 2 0 0))) 0
               = Some 0%nat) by reflexivity.
  split; [exact H0|].
  exact (proj2 (proj2 (zero_count_only_leading _ 0 0 H0) eq_refl)).
Defined.

(** ** The binary mask generator *)

Section binary_mask.

Lemma count_true_map_bool (l : list bool) :
  length (filter (fun b : bool => b = true) l) =
  length (filter (fun v : Z => v = 1)
                 (map (fun b : bool => if b then 1 else 0) l)).
Proof.
  induction l as [|b l IH]; [done|].
  simpl. rewrite !filter_cons.
  destruct b; repeat case_decide; simpl; try done; by rewrite IH.
Qed.

Lemma count_nonzero_count_true (arr : ndarray bool) :
  count_nonzero arr = count_true (astype_uint8 arr).
Proof.
  unfold count_nonzero, count_true. simpl.
  rewrite <- List.concat_map. apply count_true_map_bool.
Qed.

Lemma entry_generate_binary_mask seg code i j :
  entry (generate_binary_mask seg code).1 i j =
  option_map (fun v => if v =? code then 1 else 0) (entry seg i j).
Proof.
  unfold entry. simpl. rewrite !nth_error_map.
  destruct (nth_error (data seg) i) as [row|]; simpl; [|done].
  rewrite !nth_error_map. by destruct (nth_error row j).
Qed.

Lemma binary_generate_binary_mask seg code :
  binary (generate_binary_mask seg code).1.
Proof.
  unfold binary. simpl. rewrite map_map.
  apply List.Forall_map, List.Forall_forall. intros row _.
  rewrite map_map. apply List.Forall_map, List.Forall_forall. intros v _.
  destruct (v =? code); [by right | by left].
Qed.

Lemma wf_generate_binary_mask seg code :
  wf_array seg -> wf_array (generate_binary_mask seg code).1.
Proof.
  intros [Hh Hw]. split; simpl.
  - by rewrite !length_map.
  - rewrite map_map. apply List.Forall_map.
    eapply List.Forall_impl; [|exact Hw]. intros row Hrow. simpl.
    by rewrite !length_map.
Qed.

End binary_mask.

(** ** The annotation generator *)

Section interleavings.

Context {A : Type}.
Implicit Types l : list A.

Lemma interleaving_snoc_left x l1 l2 l :
  interleaving l1 l2 l -> interleaving (l1 ++ [x]) l2 (l ++ [x]).
Proof.
  induction 1; simpl; repeat constructor; done.
Qed.

Lemma interleaving_snoc_right x l1 l2 l :
  interleaving l1 l2 l -> interleaving l1 (l2 ++ [x]) (l ++ [x]).
Proof.
  induction 1; simpl; repeat constructor; done.
Qed.

Lemma interleaving_app l1 l2 l k1 k2 k :
  interleaving l1 l2 l -> interleaving k1 k2 k ->
  interleaving (l1 ++ k1) (l2 ++ k2) (l ++ k).
Proof.
  induction 1; simpl; intros Hk; [done| |]; constructor; auto.
Qed.

Lemma interleaving_length l1 l2 l :
  interleaving l1 l2 l -> length l = (length l1 + length l2)%nat.
Proof. induction 1; simpl; lia. Qed.

Lemma interleaving_Permutation l1 l2 l :
  interleaving l1 l2 l -> Permutation (l1 ++ l2) l.
Proof.
  induction 1 as [|x l1 l2 l _ IH|x l1 l2 l _ IH]; simpl.
  - done.
  - by constructor.
  - rewrite <- Permutation_middle. by constructor.
Qed.

End interleavings.

Section generator.

Variables category_lookup img_lookup class_colors : gmap string Z.
Variable train_set : gset string.

#[local] Abbreviation run_object :=
  (object_body category_lookup img_lookup class_colors train_set).
#[local] Abbreviation run_file :=
  (file_body category_lookup img_lookup class_colors train_set).
#[local] Abbreviation run :=
  (generate_annotations category_lookup img_lookup class_colors train_set).
#[local] Abbreviation record_of :=
  (annotation_of category_lookup img_lookup class_colors).
#[local] Abbreviation created :=
  (created_by category_lookup img_lookup class_colors).

Lemma object_body_eq img_name seg w h st obj :
  run_object img_name seg w h st obj =
  if decide (obj_name obj ≠ "brace") then
    r ← record_of img_name seg w h obj (counter st);
    Ok (push_annotation (bool_decide (img_name ∈ train_set)) r st)
  else Ok st.
Proof.
  unfold object_body, annotation_of.
  destruct (decide (obj_name obj ≠ "brace")); [|done].
  unfold mbind, result_bind.
  destruct (getitem category_lookup (obj_name obj)); [|done].
  destruct (extract_area_inside_bbox _ seg); [|done].
  destruct (getitem class_colors (obj_name obj)); [|done].
  simpl.
  destruct (decide (img_name ∈ train_set)) as [Hin|Hin].
  - rewrite (bool_decide_eq_true_2 _ Hin).
    by destruct (getitem img_lookup img_name).
  - rewrite (bool_decide_eq_false_2 _ Hin).
    by destruct (getitem img_lookup img_name).
Qed.

Lemma ids_from_app c l l' :
  ids_from c l -> ids_from (c + Z.of_nat (length l)) l' -> ids_from c (l ++ l').
Proof.
  revert c. induction l as [|r l IH]; intros c Hl Hl'; simpl in *.
  - by rewrite Z.add_0_r in Hl'.
  - destruct Hl as [Hr Hl]. split; [done|]. apply IH; [done|].
    replace (c + 1 + Z.of_nat (length l)) with (c + Z.of_nat (S (length l))) by lia.
    done.
Qed.

Lemma ids_from_nth c l k r :
  ids_from c l -> nth_error l k = Some r -> ann_id r = c + Z.of_nat k.
Proof.
  revert c k. induction l as [|r' l IH]; intros c k Hl Hk; [by destruct k|].
  destruct Hl as [Hr Hl]. destruct k as [|k]; simpl in Hk.
  - injection Hk as <-. lia.
  - rewrite (IH _ _ Hl Hk). lia.
Qed.

Lemma ids_from_sorted c l : ids_from c l -> StronglySorted Z.lt (map ann_id l).
Proof.
  revert c. induction l as [|r l IH]; intros c Hl; simpl; [constructor|].
  destruct Hl as [Hr Hl]. constructor; [by eapply IH|].
  apply List.Forall_forall. intros i Hi.
  apply in_map_iff in Hi as (r' & <- & Hr').
  apply In_nth_error in Hr' as [k Hk].
  rewrite (ids_from_nth _ _ _ _ Hl Hk). lia.
Qed.

Lemma adds_refl st : adds st st [].
Proof.
  exists [], []. rewrite !app_nil_r. simpl.
  repeat split; [constructor | lia].
Qed.

Lemma adds_trans st st' st'' l l' :
  adds st st' l -> adds st' st'' l' -> adds st st'' (l ++ l').
Proof.
  intros (tr & te & Htr & Hte & Hil & Hids & Hc)
         (tr' & te' & Htr' & Hte' & Hil' & Hids' & Hc').
  exists (tr ++ tr'), (te ++ te').
  rewrite Htr', Hte', Htr, Hte, <- !app_assoc.
  repeat split; [by apply interleaving_app | |].
  - apply ids_from_app; [done|]. by rewrite <- Hc.
  - rewrite Hc', Hc, length_app. lia.
Qed.

Lemma adds_push b r st :
  ann_id r = counter st -> adds st (push_annotation b r st) [r].
Proof.
  intros Hid. destruct b; simpl.
  - exists [r], []. rewrite app_nil_r. simpl.
    repeat split; [repeat constructor | done].
  - exists [], [r]. rewrite app_nil_r. simpl.
    repeat split; [repeat constructor | done].
Qed.

Lemma ann_id_annotation_of img_name seg w h obj i r :
  record_of img_name seg w h obj i = Ok r -> ann_id r = i.
Proof.
  unfold annotation_of, mbind, result_bind.
  repeat match goal with
         | |- context [match ?x with Ok _ => _ | Raise _ => _ end] =>
             destruct x; [|done]
         end.
  by intros [= <-].
Qed.

Lemma for_each_object_body img_name seg w h objs : forall st st',
  for_each (run_object img_name seg w h) st objs = Ok st' ->
  exists news,
    adds st st' news /\
    Forall2 (fun o r => record_of img_name seg w h o (ann_id r) = Ok r)
            (filter (fun o => obj_name o ≠ "brace") objs) news.
Proof.
  induction objs as [|obj objs IH]; intros st st' Hrun; simpl in Hrun.
  - injection Hrun as <-. exists []. split; [apply adds_refl | constructor].
  - rewrite object_body_eq in Hrun. rewrite filter_cons.
    destruct (decide (obj_name obj ≠ "brace")) as [Hname|Hname].
    + unfold mbind, result_bind in Hrun.
      destruct (record_of img_name seg w h obj (counter st)) as [r|] eqn:Hr;
        [|done].
      pose proof (ann_id_annotation_of _ _ _ _ _ _ _ Hr) as Hid.
      destruct (IH _ _ Hrun) as (news & Hadds & Hnews).
      pose proof (adds_push (bool_decide (img_name ∈ train_set)) r st Hid)
        as Hadds0.
      exists (r :: news). split.
      * apply (adds_trans _ _ _ [r] news Hadds0 Hadds).
      * constructor; [by rewrite Hid | done].
    + apply (IH _ _ Hrun).
Qed.

Lemma for_each_file_body files : forall st st',
  for_each run_file st files = Ok st' ->
  exists news, adds st st' news /\ Forall2 created (kept_objects files) news.
Proof.
  induction files as [|f files IH]; intros st st' Hrun; simpl in Hrun.
  - injection Hrun as <-. exists []. split; [apply adds_refl | constructor].
  - unfold mbind, result_bind in Hrun.
    destruct (run_file st f) as [st1|] eqn:Hf; [|done].
    apply for_each_object_body in Hf as (news1 & Hadds1 & Hnews1).
    destruct (IH _ _ Hrun) as (news & Hadds & Hnews).
    exists (news1 ++ news). split; [by eapply adds_trans|].
    unfold kept_objects. simpl. apply Forall2_app; [|done].
    apply Forall2_fmap_l. eapply Forall2_impl; [exact Hnews1|]. done.
Qed.

Lemma generate_annotations_trace files train val :
  run files = Ok (train, val) ->
  exists gen,
    interleaving train val gen /\
    Forall2 created (kept_objects files) gen /\
    ids_from 1 gen.
Proof.
  unfold generate_annotations, mbind, result_bind. intros Hrun.
  destruct (for_each run_file _ files) as [st|] eqn:Hst; [|done].
  injection Hrun as <- <-.
  apply for_each_file_body in Hst
    as (gen & (tr & te & Htr & Hte & Hil & Hids & _) & Hgen).
  simpl in *. subst. by exists gen.
Qed.

End generator.

Section generator_facts.

Variables category_lookup img_lookup class_colors : gmap string Z.
Variable train_set : gset string.

#[local] Abbreviation the_run :=
  (generate_annotations category_lookup img_lookup class_colors train_set).
#[local] Abbreviation the_record_of :=
  (annotation_of category_lookup img_lookup class_colors).

Lemma Forall2_In_r {A B} (P : A -> B -> Prop) l k y :
  Forall2 P l k -> In y k -> exists x, In x l /\ P x y.
Proof.
  induction 1 as [|x y' l k Hxy _ IH]; intros Hy; [done|].
  destruct Hy as [<- | Hy].
  - exists x. split; [by left | done].
  - destruct (IH Hy) as (x' & Hx' & HP). exists x'. split; [by right | done].
Qed.

Lemma ids_from_seq s l :
  ids_from (Z.of_nat s) l -> map ann_id l = map Z.of_nat (seq s (length l)).
Proof.
  revert s. induction l as [|r l IH]; intros s Hl; [done|].
  destruct Hl as [Hr Hl]. simpl. f_equal; [done|].
  apply IH. by replace (Z.of_nat (S s)) with (Z.of_nat s + 1) by lia.
Qed.

Lemma sorted_lt_NoDup (l : list Z) : StronglySorted Z.lt l -> List.NoDup l.
Proof.
  induction 1 as [|x l _ IH Hx]; constructor; [|done].
  intros Hin. rewrite List.Forall_forall in Hx. specialize (Hx _ Hin). lia.
Qed.

Lemma interleaving_sorted {A} (f : A -> Z) l1 l2 l :
  interleaving l1 l2 l -> StronglySorted Z.lt (map f l) ->
  StronglySorted Z.lt (map f l1) /\ StronglySorted Z.lt (map f l2).
Proof.
  induction 1 as [|x l1 l2 l Hil IH|x l1 l2 l Hil IH]; simpl; intros Hs.
  - done.
  - apply StronglySorted_inv in Hs as [Hs Hx]. destruct (IH Hs) as [H1 H2].
    split; [|done]. constructor; [done|].
    rewrite List.Forall_forall in *. intros y Hy. apply Hx.
    apply in_map_iff in Hy as (a & <- & Ha). apply in_map.
    apply (Permutation_in _ (interleaving_Permutation _ _ _ Hil)).
    apply in_or_app. by left.
  - apply StronglySorted_inv in Hs as [Hs Hx]. destruct (IH Hs) as [H1 H2].
    split; [done|]. constructor; [done|].
    rewrite List.Forall_forall in *. intros y Hy. apply Hx.
    apply in_map_iff in Hy as (a & <- & Ha). apply in_map.
    apply (Permutation_in _ (interleaving_Permutation _ _ _ Hil)).
    apply in_or_app. by right.
Qed.

Lemma annotation_of_inv img_name seg w h obj i r :
  the_record_of img_name seg w h obj i = Ok r ->
  let xmin := (bnd_xmin obj * w)%float in
  let ymin := (bnd_ymin obj * h)%float in
  let bbox := [xmin; ymin; round (bnd_xmax obj * w - xmin)%float 8;
               round (bnd_ymax obj * h - ymin)%float 8] in
  exists extracted class_color,
    extract_area_inside_bbox bbox seg = Ok extracted /\
    getitem class_colors (obj_name obj) = Ok class_color /\
    getitem category_lookup (obj_name obj) = Ok (ann_category_id r) /\
    getitem img_lookup img_name = Ok (ann_image_id r) /\
    ann_bbox r = bbox /\
    ann_segmentation r =
      binary_mask_to_rle (generate_binary_mask extracted class_color).1 /\
    ann_area r = (generate_binary_mask extracted class_color).2 /\
    ann_iscrowd r = 0 /\ ann_id r = i.
Proof.
  unfold annotation_of, mbind, result_bind. cbv zeta.
  destruct (getitem category_lookup (obj_name obj)) as [cid|]; [|done].
  destruct (extract_area_inside_bbox _ seg) as [ext|]; [|done].
  destruct (getitem class_colors (obj_name obj)) as [col|]; [|done].
  destruct (getitem img_lookup img_name) as [iid|]; [|done].
  intros [= <-]. by exists ext, col.
Qed.

Lemma for_each_without_braces img_name seg w h objs : forall st,
  for_each (object_body category_lookup img_lookup class_colors train_set
              img_name seg w h) st
           (filter (fun o => obj_name o ≠ "brace") objs) =
  for_each (object_body category_lookup img_lookup class_colors train_set
              img_name seg w h) st objs.
Proof.
  induction objs as [|obj objs IH]; intros st; [done|].
  rewrite filter_cons. simpl. rewrite (object_body_eq _ _ _ _ _ _ _ _ st obj).
  destruct (decide (obj_name obj ≠ "brace")) as [Hname|Hname]; [|apply IH].
  simpl. rewrite object_body_eq. rewrite decide_True by done.
  unfold mbind, result_bind.
  destruct (the_record_of img_name seg w h obj (counter st)); [apply IH | done].
Qed.

Lemma file_body_without_braces st f :
  file_body category_lookup img_lookup class_colors train_set st
            (without_braces f) =
  file_body category_lookup img_lookup class_colors train_set st f.
Proof. unfold file_body. simpl. apply for_each_without_braces. Qed.

Lemma generate_annotations_without_braces files :
  the_run (map without_braces files) = the_run files.
Proof.
  unfold generate_annotations. f_equal.
  generalize (mk_state [] [] 1).
  induction files as [|f files IH]; intros st; [done|].
  simpl. rewrite file_body_without_braces. unfold mbind, result_bind.
  destruct (file_body _ _ _ _ st f); [apply IH | done].
Qed.

End generator_facts.

(** ** What the specification states about the generator *)

(** C7. When the run returns, the records of the two lists, taken in the
    order of their creation (the order in which the kept objects are gone
    through, file by file), carry strictly increasing ids; hence the ids
    of the train list followed by the validation list are pairwise
    distinct, and each list by itself is strictly increasing. This holds
    for every input, the empty one included. *)
Theorem ids_unique_and_increasing
    (category_lookup img_lookup class_colors : gmap string Z)
    (train_set : gset string) (file_list : list xml_file)
    (train val : list annotation) :
  generate_annotations category_lookup img_lookup class_colors train_set
    file_list = Ok (train, val) ->
  exists gen,
    interleaving train val gen /\
    Forall2 (created_by category_lookup img_lookup class_colors)
            (kept_objects file_list) gen /\
    StronglySorted Z.lt (map ann_id gen) /\
    List.NoDup (map ann_id (train ++ val)) /\
    StronglySorted Z.lt (map ann_id train) /\
    StronglySorted Z.lt (map ann_id val).
Proof.
  intros Hrun.
  destruct (generate_annotations_trace _ _ _ _ _ _ _ Hrun)
    as (gen & Hil & Hgen & Hids).
  pose proof (ids_from_sorted _ _ Hids) as Hsorted.
  destruct (interleaving_sorted ann_id _ _ _ Hil Hsorted) as [Htr Hval].
  exists gen. repeat split; try done.
  apply NoDup_ListNoDup.
  rewrite (Permutation_map ann_id (interleaving_Permutation _ _ _ Hil)).
  by apply NoDup_ListNoDup, sorted_lt_NoDup.
Qed.

Lemma ids_unique_and_increasing_witness :
  exists train val,
    generate_annotations ex_category_lookup ex_img_lookup ex_class_colors
      ex_train_set ex_files = Ok (train, val) /\
    map ann_id train = [3] /\ map ann_id val = [1; 2] /\
    exists gen,
      interleaving train val gen /\
      StronglySorted Z.lt (map ann_id gen).
Proof.
  eexists _, _. split; [vm_compute; reflexivity|].
  split; [reflexivity|]. split; [reflexivity|].
  destruct (ids_unique_and_increasing ex_category_lookup ex_img_lookup
              ex_class_colors ex_train_set ex_files _ _ eq_refl)
    as (gen & Hil & _ & Hs & _).
  exists gen. split; [exact Hil | exact Hs].
Defined.

(** The train list followed by the validation list need not be ascending:
    in the sample run the train list holds id 3 and the validation list
    ids 1 and 2. *)
Lemma concatenation_not_ascending :
  exists train val,
    generate_annotations ex_category_lookup ex_img_lookup ex_class_colors
      ex_train_set ex_files = Ok (train, val) /\
    map ann_id (train ++ val) = [3; 1; 2].
Proof. eexists _, _. split; [vm_compute; reflexivity | reflexivity]. Qed.

(** C8. No record stands for a "brace" object: every record of either
    list was created for an object of the input whose name is not "brace"
    (its category id is the one looked up for that name), and the run on
    the input is the run on the input with the "brace" objects removed. *)
Theorem brace_excluded
    (category_lookup img_lookup class_colors : gmap string Z)
    (train_set : gset string) (file_list : list xml_file)
    (train val : list annotation) (r : annotation) :
  generate_annotations category_lookup img_lookup class_colors train_set
    file_list = Ok (train, val) ->
  In r (train ++ val) ->
  (exists f o,
     In f file_list /\ In o (objects f) /\ obj_name o <> "brace" /\
     created_by category_lookup img_lookup class_colors (f, o) r /\
     getitem category_lookup (obj_name o) = Ok (ann_category_id r)) /\
  generate_annotations category_lookup img_lookup class_colors train_set
    (map without_braces file_list) = Ok (train, val).
Proof.
  intros Hrun Hr. split; [|by rewrite generate_annotations_without_braces].
  destruct (generate_annotations_trace _ _ _ _ _ _ _ Hrun)
    as (gen & Hil & Hgen & _).
  apply (Permutation_in _ (interleaving_Permutation _ _ _ Hil)) in Hr.
  destruct (Forall2_In_r _ _ _ _ Hgen Hr) as ([f o] & Hfo & Hcreated).
  unfold kept_objects in Hfo. apply in_flat_map in Hfo as (f' & Hf' & Hfo).
  apply in_map_iff in Hfo as (o' & [= <- <-] & Ho).
  apply list_elem_of_In, list_elem_of_filter in Ho as [Hname Ho].
  apply list_elem_of_In in Ho.
  exists f', o'. repeat split; try done.
  apply annotation_of_inv in Hcreated. cbv zeta in Hcreated.
  by destruct Hcreated as (? & ? & _ & _ & Hcat & _).
Qed.

Lemma brace_excluded_witness :
  exists train val r,
    generate_annotations ex_category_lookup ex_img_lookup ex_class_colors
      ex_train_set ex_files = Ok (train, val) /\
    In r (train ++ val) /\
    exists f o,
      In f ex_files /\ In o (objects f) /\ obj_name o <> "brace" /\
      getitem ex_category_lookup (obj_name o) = Ok (ann_category_id r).
Proof.
  eexists _, _, _. split; [vm_compute; reflexivity|].
  split; [left; reflexivity|].
  destruct (brace_excluded ex_category_lookup ex_img_lookup ex_class_colors
              ex_train_set ex_files _ _ _ eq_refl (or_introl eq_refl))
    as [(f & o & Hf & Ho & Hname & _ & Hcat) _].
  exists f, o. repeat split; assumption.
Defined.

(** C10. When the run returns N records in all, the record created k-th
    (counting from 0, in the order the kept objects are gone through)
    has id k + 1: the ids are 1, 2, ..., N without a gap, and N is the
    number of objects whose name is not "brace". *)
Theorem ids_consecutive
    (category_lookup img_lookup class_colors : gmap string Z)
    (train_set : gset string) (file_list : list xml_file)
    (train val : list annotation) :
  generate_annotations category_lookup img_lookup class_colors train_set
    file_list = Ok (train, val) ->
  exists gen,
    interleaving train val gen /\
    Forall2 (created_by category_lookup img_lookup class_colors)
            (kept_objects file_list) gen /\
    map ann_id gen = map Z.of_nat (seq 1 (length gen)) /\
    length gen = (length train + length val)%nat /\
    length gen = length (kept_objects file_list).
Proof.
  intros Hrun.
  destruct (generate_annotations_trace _ _ _ _ _ _ _ Hrun)
    as (gen & Hil & Hgen & Hids).
  exists gen. repeat split; try done.
  - by apply ids_from_seq.
  - by apply interleaving_length.
  - symmetry. by eapply Forall2_length.
Qed.

Lemma ids_consecutive_witness :
  exists train val,
    generate_annotations ex_category_lookup ex_img_lookup ex_class_colors
      ex_train_set ex_files = Ok (train, val) /\
    exists gen,
      interleaving train val gen /\
      map ann_id gen = map Z.of_nat (seq 1 (length gen)) /\
      length gen = 3%nat.
Proof.
  eexists _, _. split; [vm_compute; reflexivity|].
  destruct (ids_consecutive ex_category_lookup ex_img_lookup
              ex_class_colors ex_train_set ex_files _ _ eq_refl)
    as (gen & Hil & _ & Hids & Hlen & _).
  exists gen. split; [exact Hil|]. split; [exact Hids | exact Hlen].
Defined.

(** C4. The binary mask has the shape of the submask, holds 1 exactly
    where the submask holds the intensity and 0 elsewhere, and the area
    returned with it is the number of its true pixels; the record of a
    run carries the encoding of such a mask together with that count. *)
Theorem generate_binary_mask_spec
    (seg_mask : ndarray Z) (category_code : Z)
    (category_lookup img_lookup class_colors : gmap string Z)
    (train_set : gset string) (file_list : list xml_file)
    (train val : list annotation) (r : annotation) :
  let bin_mask := (generate_binary_mask seg_mask category_code).1 in
  let area := (generate_binary_mask seg_mask category_code).2 in
  (shape bin_mask = shape seg_mask /\
   binary bin_mask /\
   (forall i j,
      entry bin_mask i j = Some 1 <-> entry seg_mask i j = Some category_code) /\
   (forall i j, entry bin_mask i j = None <-> entry seg_mask i j = None) /\
   area = count_true bin_mask) /\
  (generate_annotations category_lookup img_lookup class_colors train_set
     file_list = Ok (train, val) ->
   In r (train ++ val) ->
   exists f extracted intensity,
     In f file_list /\
     extract_area_inside_bbox (ann_bbox r) (seg_array f) = Ok extracted /\
     ann_segmentation r =
       binary_mask_to_rle (generate_binary_mask extracted intensity).1 /\
     ann_area r = (generate_binary_mask extracted intensity).2 /\
     ann_area r = count_true (generate_binary_mask extracted intensity).1).
Proof.
  cbv zeta. split.
  - split; [done|]. split; [apply binary_generate_binary_mask|].
    split; [|split].
    + intros i j. rewrite entry_generate_binary_mask.
      destruct (entry seg_mask i j) as [v|]; simpl; [|done].
      destruct (Z.eqb_spec v category_code); split; intros ?; congruence.
    + intros i j. rewrite entry_generate_binary_mask.
      by destruct (entry seg_mask i j).
    + apply count_nonzero_count_true.
  - intros Hrun Hr.
    destruct (generate_annotations_trace _ _ _ _ _ _ _ Hrun)
      as (gen & Hil & Hgen & _).
    apply (Permutation_in _ (interleaving_Permutation _ _ _ Hil)) in Hr.
    destruct (Forall2_In_r _ _ _ _ Hgen Hr) as ([f o] & Hfo & Hcreated).
    unfold kept_objects in Hfo. apply in_flat_map in Hfo as (f' & Hf' & Hfo).
    apply in_map_iff in Hfo as (o' & [= <- <-] & _).
    apply annotation_of_inv in Hcreated. cbv zeta in Hcreated.
    destruct Hcreated
      as (extracted & intensity & Hext & _ & _ & _ & Hbbox & Hseg & Harea & _).
    exists f', extracted, intensity. simpl in *.
    rewrite Hbbox. repeat split; try done.
    rewrite Harea. apply count_nonzero_count_true.
Qed.

Lemma generate_binary_mask_spec_witness :
  exists train val r,
    generate_annotations ex_category_lookup ex_img_lookup ex_class_colors
      ex_train_set ex_files = Ok (train, val) /\
    In r (train ++ val) /\
    exists f extracted intensity,
      In f ex_files /\
      ann_segmentation r =
        binary_mask_to_rle (generate_binary_mask extracted intensity).1 /\
      ann_area r = count_true (generate_binary_mask extracted intensity).1.
Proof.
  eexists _, _, _. split; [vm_compute; reflexivity|].
  split; [right; left; reflexivity|].
  destruct (proj2 (generate_binary_mask_spec ex_seg 7
              ex_category_lookup ex_img_lookup ex_class_colors ex_train_set
              ex_files _ _ _) eq_refl (or_intror (or_introl eq_refl)))
    as (f & extracted & intensity & Hf & _ & Hseg & _ & Harea).
  exists f, extracted, intensity.
  split; [exact Hf|]. split; [exact Hseg | exact Harea].
Defined.

(** C6, as the code has it. For an object that is not skipped the box is
    [x = xmin_frac * width], [y = ymin_frac * height],
    [w = xmax_frac * width - x] and [h = ymax_frac * height - y], the last
    two rounded to 8 decimals; nothing checks the signs of [w] and [h]:
    whenever the three lookups and the extraction succeed the record is
    appended with that box. *)
Theorem bbox_computed_not_validated
    (category_lookup img_lookup class_colors : gmap string Z)
    (train_set : gset string) (img_name : string) (seg : ndarray Z)
    (w h : float) (st : gen_state) (obj : xml_object)
    (category_id class_color image_id : Z) (extracted : ndarray Z) :
  let x := (bnd_xmin obj * w)%float in
  let y := (bnd_ymin obj * h)%float in
  let bbox := [x; y; round (bnd_xmax obj * w - x)%float 8;
               round (bnd_ymax obj * h - y)%float 8] in
  obj_name obj <> "brace" ->
  getitem category_lookup (obj_name obj) = Ok category_id ->
  extract_area_inside_bbox bbox seg = Ok extracted ->
  getitem class_colors (obj_name obj) = Ok class_color ->
  getitem img_lookup img_name = Ok image_id ->
  exists r,
    object_body category_lookup img_lookup class_colors train_set
      img_name seg w h st obj =
      Ok (push_annotation (bool_decide (img_name ∈ train_set)) r st) /\
    ann_bbox r = bbox /\ ann_id r = counter st.
Proof.
  cbv zeta. intros Hname Hcat Hext Hcol Himg.
  rewrite object_body_eq, decide_True by done.
  unfold annotation_of, mbind, result_bind.
  rewrite Hcat, Hext, Hcol, Himg. by eexists.
Qed.

Lemma bbox_computed_not_validated_witness :
  exists r,
    object_body ex_category_lookup ex_img_lookup ex_class_colors ex_train_set
      "b" ex_seg 4 4 (mk_state [] [] 1) (mk_object "note" 0.75 0.25 0.25 1) =
      Ok (push_annotation true r (mk_state [] [] 1)) /\
    ann_bbox r = [3; 1; -2; 3]%float /\ ann_id r = 1.
Proof.
  refine (bbox_computed_not_validated ex_category_lookup ex_img_lookup
            ex_class_colors ex_train_set "b" ex_seg 4 4 (mk_state [] [] 1)
            (mk_object "note" 0.75 0.25 0.25 1) 10 7 200
            (mk_ndarray (3, 0)%nat [[]; []; []]) _ _ _ _ _);
    [discriminate | vm_compute; reflexivity ..].
Defined.

(** A box of negative width is accepted: the run returns its record
    instead of failing. *)
Lemma negative_box_accepted :
  exists r,
    generate_annotations ex_category_lookup ex_img_lookup ex_class_colors
      ex_train_set
      [mk_file "b.xml" 4 4 [mk_object "note" 0.75 0.25 0.25 1] ex_seg] =
      Ok ([r], []) /\
    ann_bbox r = [3; 1; -2; 3]%float /\
    (-2 <? 0)%float = true.
Proof.
  eexists. split; [vm_compute; reflexivity|]. split; reflexivity.
Qed.

(** ** The mask extractor *)

Lemma adjust_index_clamp i n : adjust_index i n = clamp (from_end i n) n.
Proof.
  unfold adjust_index, clamp, from_end. destruct (Z.ltb_spec i 0); lia.
Qed.

Lemma from_end_nonneg i n : 0 <= i -> from_end i n = i.
Proof. unfold from_end. destruct (Z.ltb_spec i 0); lia. Qed.

Lemma getitem_slice2_crop_clamped {A} (m : ndarray A) y0 y1 x0 x1 :
  getitem_slice2 m y0 y1 x0 x1 =
  crop_clamped m (from_end y0 (height m)) (from_end y1 (height m))
                 (from_end x0 (width m)) (from_end x1 (width m)).
Proof.
  unfold getitem_slice2, crop_clamped, crop. by rewrite !adjust_index_clamp.
Qed.

Lemma extract_area_inside_bbox_eq (x y w h : float) (m : ndarray Z)
    (x0 y0 x1 y1 : Z) :
  floor x = Ok x0 -> floor y = Ok y0 ->
  ceil (x + w)%float = Ok x1 -> ceil (y + h)%float = Ok y1 ->
  extract_area_inside_bbox [x; y; w; h] m = Ok (getitem_slice2 m y0 y1 x0 x1).
Proof.
  intros Hx Hy Hw Hh. unfold extract_area_inside_bbox. simpl.
  rewrite Hx. simpl. rewrite Hy. simpl. rewrite Hw. simpl. by rewrite Hh.
Qed.

Lemma floor_finite x : (exists z, floor x = Ok z) <-> is_finite x = true.
Proof.
  unfold floor, is_finite.
  destruct (Prim2SF x); split; try done; try (intros [? ?]; done); by eexists.
Qed.

Lemma ceil_finite x : (exists z, ceil x = Ok z) <-> is_finite x = true.
Proof.
  unfold ceil, is_finite.
  destruct (Prim2SF x); split; try done; try (intros [? ?]; done); by eexists.
Qed.

(** C5, as the code has it. For a box whose [x], [y] and float sums
    [x + w], [y + h] are finite, the crop bounds are [x0 = floor(x)],
    [y0 = floor(y)], [x1 = ceil(x + w)], [y1 = ceil(y + h)] and the result
    is the slice [[y0:y1, x0:x1]]: each bound, counted from the far edge
    when it is negative, is cut to [0, width] x [0, height]. For bounds
    that are not negative this is the crop with the bounds clamped; the
    box [10, 5, 20, 15] on a 100 x 100 mask gives rows 5..20 and columns
    10..30. *)
Theorem extract_area_inside_bbox_slice (x y w h : float) (m : ndarray Z) :
  is_finite x = true -> is_finite y = true ->
  is_finite (x + w) = true -> is_finite (y + h) = true ->
  exists x0 y0 x1 y1 : Z,
    floor x = Ok x0 /\ floor y = Ok y0 /\
    ceil (x + w)%float = Ok x1 /\ ceil (y + h)%float = Ok y1 /\
    extract_area_inside_bbox [x; y; w; h] m =
      Ok (crop_clamped m (from_end y0 (height m)) (from_end y1 (height m))
                         (from_end x0 (width m)) (from_end x1 (width m))) /\
    (0 <= x0 -> 0 <= y0 -> 0 <= x1 -> 0 <= y1 ->
     extract_area_inside_bbox [x; y; w; h] m =
       Ok (crop_clamped m y0 y1 x0 x1)) /\
    (shape m = (100, 100)%nat ->
     extract_area_inside_bbox [10; 5; 20; 15]%float m =
       Ok (crop m 5 20 10 30)).
Proof.
  intros Fx Fy Fw Fh.
  apply floor_finite in Fx as [x0 Hx]. apply floor_finite in Fy as [y0 Hy].
  apply ceil_finite in Fw as [x1 Hw]. apply ceil_finite in Fh as [y1 Hh].
  exists x0, y0, x1, y1. do 4 (split; [done|]).
  rewrite (extract_area_inside_bbox_eq _ _ _ _ _ _ _ _ _ Hx Hy Hw Hh).
  rewrite getitem_slice2_crop_clamped. split; [done|]. split.
  - intros ? ? ? ?. by rewrite !from_end_nonneg.
  - intros Hshape.
    rewrite (extract_area_inside_bbox_eq 10 5 20 15 m 10 5 30 20)
      by (vm_compute; reflexivity).
    unfold getitem_slice2, height, width. rewrite Hshape. reflexivity.
Qed.

Lemma extract_area_inside_bbox_slice_witness :
  is_finite 1.5 = true /\ is_finite 0 = true /\
  is_finite (1.5 + 1.25) = true /\ is_finite (0 + 1) = true /\
  extract_area_inside_bbox [1.5; 0; 1.25; 1]%float ex_mask =
    Ok (crop_clamped ex_mask 0 1 1 3) /\
  crop_clamped ex_mask 0 1 1 3 = mk_ndarray (1, 2)%nat [[2; 3]].
Proof.
  do 4 (split; [reflexivity|]). split; [|reflexivity].
  destruct (extract_area_inside_bbox_slice 1.5 0 1.25 1 ex_mask
              eq_refl eq_refl eq_refl eq_refl)
    as (x0 & y0 & x1 & y1 & Hx & Hy & Hw & Hh & _ & Hclamped & _).
  assert (Ex : x0 = 1) by (vm_compute in Hx; congruence).
  assert (Ey : y0 = 0) by (vm_compute in Hy; congruence).
  assert (Ew : x1 = 3) by (vm_compute in Hw; congruence).
  assert (Eh : y1 = 1) by (vm_compute in Hh; congruence).
  subst. apply Hclamped; lia.
Defined.

(** The bounds are not clamped to [0, width] x [0, height]: with
    [x0 = -1] the slice starts at the last column, not at column 0. *)
Lemma extract_area_inside_bbox_not_clamped :
  floor (-1) = Ok (-1) /\ floor 0 = Ok 0 /\
  ceil (-1 + 3)%float = Ok 2 /\ ceil (0 + 2)%float = Ok 2 /\
  extract_area_inside_bbox [-1; 0; 3; 2]%float ex_mask =
    Ok (mk_ndarray (2, 0)%nat [[]; []]) /\
  crop_clamped ex_mask 0 2 (-1) 2 = mk_ndarray (2, 2)%nat [[1; 2]; [5; 6]] /\
  extract_area_inside_bbox [-1; 0; 3; 2]%float ex_mask <>
    Ok (crop_clamped ex_mask 0 2 (-1) 2).
Proof.
  repeat (split; [vm_compute; reflexivity|]).
  vm_compute. discriminate.
Qed.

(** * Further properties of the code *)

(** ** More on the encoder *)

Lemma ravel_F_Forall {A} (P : A -> Prop) (m : ndarray A) :
  Forall (Forall P) (data m) -> Forall P (ravel_F m).
Proof.
  intros HP. unfold ravel_F, column.
  apply List.Forall_flat_map, List.Forall_forall. intros j _.
  apply List.Forall_flat_map.
  eapply List.Forall_impl; [|exact HP]. intros row Hrow.
  destruct (nth_error row j) as [x|] eqn:Hx; [|constructor].
  constructor; [|constructor].
  rewrite List.Forall_forall in Hrow. eapply Hrow, nth_error_In, Hx.
Qed.

Lemma Forall_eq_repeat {A} (v : A) l :
  Forall (fun x => x = v) l -> l = repeat v (length l).
Proof. induction 1 as [|x l -> _ IH]; simpl; [done | by rewrite <- IH]. Qed.

Lemma groupby_repeat v n :
  groupby (repeat v (S n)) = [(v, repeat v (S n))].
Proof.
  induction n as [|n IH]; [done|].
  change (repeat v (S (S n))) with (v :: repeat v (S n)).
  rewrite groupby_step, IH. by rewrite Z.eqb_refl.
Qed.

(** The encoder loses nothing: two binary masks with the same encoding
    are the same mask. *)
Theorem binary_mask_to_rle_injective (m1 m2 : ndarray Z) :
  wf_array m1 -> binary m1 -> wf_array m2 -> binary m2 ->
  binary_mask_to_rle m1 = binary_mask_to_rle m2 -> m1 = m2.
Proof.
  intros Hwf1 Hb1 Hwf2 Hb2 Heq.
  pose proof (rle_decode_encode m1 Hwf1 Hb1) as H1.
  pose proof (rle_decode_encode m2 Hwf2 Hb2) as H2.
  rewrite Heq in H1. congruence.
Qed.

Lemma binary_mask_to_rle_injective_witness :
  binary_mask_to_rle (all_zero 2 3) = binary_mask_to_rle (all_zero 2 3) /\
  all_zero 2 3 = all_zero 2 3.
Proof.
  split; [reflexivity|].
  apply binary_mask_to_rle_injective;
    [ split; [reflexivity | repeat constructor]
    | repeat constructor; by left
    | split; [reflexivity | repeat constructor]
    | repeat constructor; by left
    | reflexivity ].
Defined.

(** A mask with at least one pixel whose pixels all hold the same value
    [v] is encoded by one run of all its pixels, after a zero when [v] is
    foreground. *)
Theorem constant_mask_counts (m : ndarray Z) (v : Z) :
  wf_array m -> Forall (Forall (fun x => x = v)) (data m) ->
  (0 < height m * width m)%nat ->
  counts (binary_mask_to_rle m) =
    if decide (v = 1) then [0%nat; (height m * width m)%nat]
    else [(height m * width m)%nat].
Proof.
  intros Hwf Hall Hpos. rewrite counts_binary_mask_to_rle.
  pose proof (Forall_eq_repeat v _ (ravel_F_Forall _ m Hall)) as Hflat.
  rewrite length_ravel_F in Hflat by done. rewrite Hflat.
  destruct (height m * width m)%nat as [|n]; [lia|].
  unfold run_lengths. rewrite groupby_repeat. simpl.
  rewrite repeat_length.
  destruct (decide (v = 1)) as [->|Hv]; [done|].
  destruct v as [|[p|p|]|p]; done.
Qed.

Lemma constant_mask_counts_witness :
  counts (binary_mask_to_rle (all_one 2 3)) = [0; 6]%nat.
Proof.
  apply (constant_mask_counts (all_one 2 3) 1);
    [ split; [reflexivity | repeat constructor]
    | repeat constructor
    | simpl; lia ].
Defined.

(** The list of counts is empty exactly when the mask has no pixel. *)
Theorem counts_empty_iff (m : ndarray Z) :
  wf_array m ->
  (counts (binary_mask_to_rle m) = [] <-> (height m * width m = 0)%nat).
Proof.
  intros Hwf. rewrite counts_binary_mask_to_rle.
  rewrite <- (length_ravel_F m Hwf).
  destruct (ravel_F m) as [|x l] eqn:Hflat; [done|].
  split; [|done]. intros Hnil. apply app_eq_nil in Hnil as [_ Hruns].
  unfold run_lengths in Hruns.
  destruct (groupby_cons x l) as (g & rest & Hg). by rewrite Hg in Hruns.
Qed.

Lemma counts_empty_iff_witness :
  counts (binary_mask_to_rle (mk_ndarray (3, 0)%nat [[]; []; []])) = [].
Proof.
  apply (counts_empty_iff (mk_ndarray (3, 0)%nat [[]; []; []]));
    [ split; [reflexivity | repeat constructor] | reflexivity ].
Defined.

Lemma count_ones_app l k : count_ones (l ++ k) = (count_ones l + count_ones k)%nat.
Proof. unfold count_ones. by rewrite filter_app, length_app. Qed.

Lemma count_ones_repeat v n :
  count_ones (repeat v n) = if decide (v = 1) then n else 0%nat.
Proof.
  unfold count_ones. induction n as [|n IH]; simpl; [by case_decide|].
  rewrite filter_cons. destruct (decide (v = 1)); simpl; by rewrite IH.
Qed.

Lemma count_ones_replay cs : forall v,
  bit v -> count_ones (replay v cs) = foreground_sum (bool_decide (v = 1)) cs.
Proof.
  induction cs as [|c cs IH]; intros v Hv; [done|].
  simpl. rewrite count_ones_app, count_ones_repeat, IH.
  - destruct Hv as [-> | ->]; done.
  - destruct Hv as [-> | ->]; [by right | by left].
Qed.

Lemma flat_map_cons_Permutation {A B} (f : A -> B) (g : A -> list B) l :
  Permutation (flat_map (fun a => f a :: g a) l) (map f l ++ flat_map g l).
Proof.
  induction l as [|a l IH]; simpl; [done|].
  constructor. rewrite IH. apply Permutation_app_swap_app.
Qed.

Lemma flat_map_ext_in {A B} (f g : A -> list B) l :
  (forall a, In a l -> f a = g a) -> flat_map f l = flat_map g l.
Proof.
  induction l as [|a l IH]; intros Hfg; simpl; [done|].
  rewrite Hfg by by left. rewrite IH; [done|]. intros; apply Hfg. by right.
Qed.

Lemma flat_map_nil {A B} (l : list A) :
  flat_map (fun _ => @nil B) l = [].
Proof. by induction l. Qed.

Lemma concat_Permutation_columns (w : nat) (rows : list (list Z)) :
  Forall (fun row => length row = w) rows ->
  Permutation (concat rows) (flat_map (fun j => column j rows) (seq 0 w)).
Proof.
  induction 1 as [|row rows Hrow _ IH]; simpl.
  - unfold column. simpl. by rewrite flat_map_nil.
  - rewrite (flat_map_ext_in _ (fun j => nth j row 0 :: column j rows)).
    + rewrite flat_map_cons_Permutation, map_nth_seq by done.
      by apply Permutation_app_head.
    + intros j Hj. apply in_seq in Hj. apply column_cons.
      apply nth_error_nth'. lia.
Qed.

Lemma count_true_ravel_F (m : ndarray Z) :
  wf_array m -> count_true m = count_ones (ravel_F m).
Proof.
  intros [_ Hw]. unfold count_true, count_ones, ravel_F.
  by rewrite (concat_Permutation_columns _ _ Hw).
Qed.

Lemma count_true_foreground_sum (m : ndarray Z) :
  wf_array m -> binary m ->
  count_true m = foreground_sum false (counts (binary_mask_to_rle m)).
Proof.
  intros Hwf Hbin. rewrite count_true_ravel_F by done.
  rewrite <- (replay_counts (ravel_F m)) at 1 by by apply ravel_F_bits.
  rewrite <- counts_binary_mask_to_rle.
  apply (count_ones_replay _ 0). by left.
Qed.

(** The number of foreground pixels of a binary mask is the sum of the
    counts at the odd positions of its encoding. *)
Theorem foreground_pixels_are_odd_counts (m : ndarray Z) :
  wf_array m -> binary m ->
  count_true m = foreground_sum false (counts (binary_mask_to_rle m)).
Proof. apply count_true_foreground_sum. Qed.

Lemma foreground_pixels_are_odd_counts_witness :
  count_true (checkerboard 3 3) = 4%nat /\
  foreground_sum false (counts (binary_mask_to_rle (checkerboard 3 3))) = 4%nat.
Proof.
  split; [reflexivity|].
  rewrite <- (foreground_pixels_are_odd_counts (checkerboard 3 3));
    [ reflexivity
    | split; [reflexivity | repeat constructor]
    | repeat constructor; (by left) || (by right) ].
Defined.

(** ** More on the binary mask generator *)

(** The mask keeps the submask's dimensions, its area is at most the
    number of pixels, and the area is 0 exactly when the intensity does
    not occur in the submask. *)
Theorem generate_binary_mask_area (seg_mask : ndarray Z) (category_code : Z) :
  wf_array seg_mask ->
  wf_array (generate_binary_mask seg_mask category_code).1 /\
  ((generate_binary_mask seg_mask category_code).2
     <= height seg_mask * width seg_mask)%nat /\
  ((generate_binary_mask seg_mask category_code).2 = 0%nat <->
   Forall (Forall (fun v => v <> category_code)) (data seg_mask)).
Proof.
  intros Hwf. split; [by apply wf_generate_binary_mask|].
  assert (Hlen : length (concat (data (np_eq seg_mask category_code))) =
                 (height seg_mask * width seg_mask)%nat).
  { destruct Hwf as [Hh Hw]. simpl. rewrite <- Hh. clear Hh.
    induction Hw as [|row rows Hrow _ IH]; simpl; [done|].
    rewrite length_app, IH, length_map. lia. }
  split.
  - simpl. unfold count_nonzero. rewrite <- Hlen. apply length_filter.
  - simpl. unfold count_nonzero. simpl. clear Hlen Hwf.
    induction (data seg_mask) as [|row rows IH]; simpl.
    + split; [constructor | done].
    + rewrite filter_app, length_app, List.Forall_cons_iff, <- IH.
      assert (Hrow : length (filter (fun b : bool => b = true)
                              (map (fun v => v =? category_code) row)) = 0%nat
                     <-> Forall (fun v => v <> category_code) row).
      { clear IH. induction row as [|v row IHrow]; simpl.
        - split; [constructor | done].
        - rewrite filter_cons, List.Forall_cons_iff, <- IHrow.
          destruct (Z.eqb_spec v category_code); case_decide; simpl;
            try done; split; try lia; intros [? ?]; done. }
      rewrite <- Hrow. lia.
Qed.

Lemma generate_binary_mask_area_witness :
  (generate_binary_mask ex_mask 9).2 = 0%nat /\
  ((generate_binary_mask ex_mask 3).2 <= 8)%nat.
Proof.
  assert (Hwf : wf_array ex_mask) by (split; [reflexivity | repeat constructor]).
  destruct (generate_binary_mask_area ex_mask 9 Hwf) as (_ & _ & H0).
  destruct (generate_binary_mask_area ex_mask 3 Hwf) as (_ & Hle & _).
  split; [|exact Hle].
  apply H0. repeat constructor; discriminate.
Defined.

(** ** More on the mask extractor *)

Lemma adjust_index_le i n : (adjust_index i n <= n)%nat.
Proof. unfold adjust_index. destruct (Z.ltb_spec i 0); lia. Qed.

Lemma wf_getitem_slice2 {A} (m : ndarray A) y0 y1 x0 x1 :
  wf_array m ->
  wf_array (getitem_slice2 m y0 y1 x0 x1) /\
  (height (getitem_slice2 m y0 y1 x0 x1) <= height m)%nat /\
  (width (getitem_slice2 m y0 y1 x0 x1) <= width m)%nat.
Proof.
  intros [Hh Hw].
  pose proof (adjust_index_le y0 (height m)).
  pose proof (adjust_index_le y1 (height m)).
  pose proof (adjust_index_le x0 (width m)).
  pose proof (adjust_index_le x1 (width m)).
  unfold wf_array, getitem_slice2, height, width in *. simpl.
  split; [split|lia].
  - rewrite length_map, length_firstn, length_skipn. lia.
  - apply List.Forall_map. apply Forall_take, Forall_drop.
    eapply List.Forall_impl; [|exact Hw]. intros row Hrow. simpl in *.
    rewrite length_firstn, length_skipn. lia.
Qed.

(** The extraction of a four-entry box returns exactly when [x], [y] and
    the float sums [x + w], [y + h] are finite, whatever the mask and
    however far the box reaches outside of it. *)
Theorem extract_area_inside_bbox_returns_iff (x y w h : float) (m : ndarray Z) :
  (exists extracted, extract_area_inside_bbox [x; y; w; h] m = Ok extracted) <->
  is_finite x = true /\ is_finite y = true /\
  is_finite (x + w) = true /\ is_finite (y + h) = true.
Proof.
  pose proof (floor_finite x) as Hx. pose proof (floor_finite y) as Hy.
  pose proof (ceil_finite (x + w)) as Hw.
  pose proof (ceil_finite (y + h)) as Hh.
  unfold extract_area_inside_bbox. simpl.
  destruct (floor x) as [x0|]; simpl.
  2: { split; [by intros [? ?] | intros (Hf & _)].
       apply Hx in Hf as [? ?]; done. }
  destruct (floor y) as [y0|]; simpl.
  2: { split; [by intros [? ?] | intros (_ & Hf & _)].
       apply Hy in Hf as [? ?]; done. }
  destruct (ceil (x + w)) as [x1|]; simpl.
  2: { split; [by intros [? ?] | intros (_ & _ & Hf & _)].
       apply Hw in Hf as [? ?]; done. }
  destruct (ceil (y + h)) as [y1|]; simpl.
  2: { split; [by intros [? ?] | intros (_ & _ & _ & Hf)].
       apply Hh in Hf as [? ?]; done. }
  split; [intros _ | intros _; by eexists].
  repeat split; [apply Hx | apply Hy | apply Hw | apply Hh]; by eexists.
Qed.

Lemma extract_area_inside_bbox_wf (bbox : list float)
    (m extracted : ndarray Z) :
  wf_array m ->
  extract_area_inside_bbox bbox m = Ok extracted ->
  wf_array extracted /\
  (height extracted <= height m)%nat /\ (width extracted <= width m)%nat.
Proof.
  intros Hwf. unfold extract_area_inside_bbox, mbind, result_bind.
  repeat match goal with
         | |- context [match ?x with Ok _ => _ | Raise _ => _ end] =>
             destruct x; [|done]
         end.
  intros [= <-]. by apply wf_getitem_slice2.
Qed.

(** A box that reaches outside of the mask is cut, not refused: what the
    extraction returns for a well-formed mask is well-formed and no
    larger than the mask. *)
Theorem extract_area_inside_bbox_within (bbox : list float)
    (m extracted : ndarray Z) :
  wf_array m ->
  extract_area_inside_bbox bbox m = Ok extracted ->
  wf_array extracted /\
  (height extracted <= height m)%nat /\ (width extracted <= width m)%nat.
Proof. apply extract_area_inside_bbox_wf. Qed.

Lemma extract_area_inside_bbox_within_witness :
  exists extracted,
    extract_area_inside_bbox [2.5; -7; 100; 8]%float ex_mask = Ok extracted /\
    wf_array extracted /\
    (height extracted <= 2)%nat /\ (width extracted <= 4)%nat.
Proof.
  eexists. split; [vm_compute; reflexivity|].
  apply (extract_area_inside_bbox_within [2.5; -7; 100; 8]%float ex_mask);
    [ split; [reflexivity | repeat constructor] | vm_compute; reflexivity ].
Defined.

(** A box with fewer than four entries is refused. *)
Theorem extract_area_inside_bbox_short (bbox : list float) (m : ndarray Z) :
  (length bbox < 4)%nat ->
  exists e, extract_area_inside_bbox bbox m = Raise e.
Proof.
  intros Hlen. unfold extract_area_inside_bbox, mbind, result_bind.
  destruct bbox as [|x [|y [|w [|h bbox]]]]; simpl in *; try lia;
    repeat match goal with
           | |- context [match ?x with Ok _ => _ | Raise _ => _ end] =>
               destruct x
           end; by eexists.
Qed.

Lemma extract_area_inside_bbox_short_witness :
  extract_area_inside_bbox [1; 2; 3]%float ex_mask = Raise IndexError.
Proof.
  destruct (extract_area_inside_bbox_short [1; 2; 3]%float ex_mask) as [e He];
    [simpl; lia|].
  rewrite He. revert He. vm_compute. by intros [= <-].
Defined.

Lemma adjust_index_in_range i n :
  0 <= i <= Z.of_nat n -> adjust_index i n = Z.to_nat i.
Proof. intros Hi. unfold adjust_index. destruct (Z.ltb_spec i 0); lia. Qed.

Lemma entry_getitem_slice2 {A} (m : ndarray A) y0 y1 x0 x1 i j :
  let r0 := adjust_index y0 (height m) in
  let r1 := adjust_index y1 (height m) in
  let c0 := adjust_index x0 (width m) in
  let c1 := adjust_index x1 (width m) in
  (i < r1 - r0)%nat -> (j < c1 - c0)%nat ->
  entry (getitem_slice2 m y0 y1 x0 x1) i j = entry m (r0 + i) (c0 + j).
Proof.
  cbv zeta. intros Hi Hj. unfold entry, getitem_slice2. simpl.
  rewrite nth_error_map, nth_error_firstn, nth_error_skipn.
  apply Nat.ltb_lt in Hi as ->.
  destruct (nth_error (data m) _) as [row|]; simpl; [|done].
  rewrite nth_error_firstn, nth_error_skipn.
  by apply Nat.ltb_lt in Hj as ->.
Qed.

(** For a box whose integer bounds lie inside the mask, the extraction
    is the window itself: [y1 - y0] rows of [x1 - x0] entries, the entry
    at row [i], column [j] being the mask's entry at row [y0 + i], column
    [x0 + j]. *)
Theorem extract_area_inside_bbox_window (x y w h : float) (m : ndarray Z)
    (x0 y0 x1 y1 : Z) :
  floor x = Ok x0 -> floor y = Ok y0 ->
  ceil (x + w)%float = Ok x1 -> ceil (y + h)%float = Ok y1 ->
  0 <= x0 <= x1 -> x1 <= Z.of_nat (width m) ->
  0 <= y0 <= y1 -> y1 <= Z.of_nat (height m) ->
  exists extracted,
    extract_area_inside_bbox [x; y; w; h] m = Ok extracted /\
    shape extracted = (Z.to_nat (y1 - y0), Z.to_nat (x1 - x0)) /\
    forall i j : nat,
      Z.of_nat i < y1 - y0 -> Z.of_nat j < x1 - x0 ->
      entry extracted i j = entry m (Z.to_nat y0 + i) (Z.to_nat x0 + j).
Proof.
  intros Hx Hy Hw Hh Hx01 Hx1 Hy01 Hy1.
  exists (getitem_slice2 m y0 y1 x0 x1).
  split; [by apply extract_area_inside_bbox_eq|].
  assert (Hr0 : adjust_index y0 (height m) = Z.to_nat y0)
    by (apply adjust_index_in_range; lia).
  assert (Hr1 : adjust_index y1 (height m) = Z.to_nat y1)
    by (apply adjust_index_in_range; lia).
  assert (Hc0 : adjust_index x0 (width m) = Z.to_nat x0)
    by (apply adjust_index_in_range; lia).
  assert (Hc1 : adjust_index x1 (width m) = Z.to_nat x1)
    by (apply adjust_index_in_range; lia).
  split.
  - unfold getitem_slice2. simpl. rewrite Hr0, Hr1, Hc0, Hc1. f_equal; lia.
  - intros i j Hi Hj.
    rewrite entry_getitem_slice2 by (rewrite ?Hr0, ?Hr1, ?Hc0, ?Hc1; lia).
    by rewrite Hr0, Hc0.
Qed.

Lemma extract_area_inside_bbox_window_witness :
  exists extracted,
    extract_area_inside_bbox [1.5; 0; 1.25; 1]%float ex_mask = Ok extracted /\
    shape extracted = (1, 2)%nat /\
    entry extracted 0 1 = entry ex_mask 0 2.
Proof.
  destruct (extract_area_inside_bbox_window 1.5 0 1.25 1 ex_mask 1 0 3 1)
    as (extracted & Hext & Hshape & Hentry);
    [vm_compute; reflexivity ..
    | lia | cbv [width height ex_mask shape snd fst]; lia
    | lia | cbv [width height ex_mask shape snd fst]; lia |].
  exists extracted. split; [exact Hext|]. split; [exact Hshape|].
  apply (Hentry 0%nat 1%nat); lia.
Defined.

(** ** More on the annotation generator *)

Section generator_more.

Variables category_lookup img_lookup class_colors : gmap string Z.
Variable train_set : gset string.

#[local] Abbreviation step_object :=
  (object_body category_lookup img_lookup class_colors train_set).
#[local] Abbreviation step_file :=
  (file_body category_lookup img_lookup class_colors train_set).
#[local] Abbreviation whole_run :=
  (generate_annotations category_lookup img_lookup class_colors train_set).
#[local] Abbreviation in_split :=
  (created_in_split category_lookup img_lookup class_colors train_set).

Lemma for_each_app {S A} (body : S -> A -> result S) l1 l2 : forall st,
  for_each body st (l1 ++ l2) =
  st' ← for_each body st l1; for_each body st' l2.
Proof.
  induction l1 as [|x l1 IH]; intros st; simpl; [done|].
  unfold mbind, result_bind. destruct (body st x); [apply IH | done].
Qed.

Lemma Forall2_In_l {A B} (P : A -> B -> Prop) l k x :
  Forall2 P l k -> In x l -> exists y, In y k /\ P x y.
Proof.
  induction 1 as [|x' y l k Hxy _ IH]; intros Hx; [done|].
  destruct Hx as [<- | Hx].
  - exists y. split; [by left | done].
  - destruct (IH Hx) as (y' & Hy' & HP). exists y'. split; [by right | done].
Qed.

Lemma for_each_object_body_split all f objs : forall st st',
  In f all -> (forall o, In o objs -> In o (objects f)) ->
  Forall (in_split all true) (train_annotation_list st) ->
  Forall (in_split all false) (test_annotation_list st) ->
  for_each (step_object (img_name_of f) (seg_array f)
              (size_width f) (size_height f)) st objs = Ok st' ->
  Forall (in_split all true) (train_annotation_list st') /\
  Forall (in_split all false) (test_annotation_list st').
Proof.
  induction objs as [|obj objs IH]; intros st st' Hf Hobjs Htr Hte Hrun;
    simpl in Hrun.
  - by injection Hrun as <-.
  - rewrite object_body_eq in Hrun.
    assert (Hrest : forall o, In o objs -> In o (objects f))
      by (intros; apply Hobjs; by right).
    destruct (decide (obj_name obj ≠ "brace")) as [Hname|Hname];
      [|by apply (IH st st')].
    unfold mbind, result_bind in Hrun.
    destruct (annotation_of _ _ _ _ _ _ _ obj (counter st)) as [r|] eqn:Hr;
      [|done].
    assert (Hsplit : in_split all (bool_decide (img_name_of f ∈ train_set)) r).
    { exists f, obj. repeat split; try done; [apply Hobjs; by left|].
      unfold created_by. simpl.
      by rewrite (ann_id_annotation_of _ _ _ _ _ _ _ _ _ _ Hr). }
    refine (IH _ st' Hf Hrest _ _ Hrun);
      destruct (bool_decide (img_name_of f ∈ train_set)); simpl; try done;
      apply Forall_app; split; try done; by constructor.
Qed.

Lemma for_each_file_body_split all files : forall st st',
  (forall f, In f files -> In f all) ->
  Forall (in_split all true) (train_annotation_list st) ->
  Forall (in_split all false) (test_annotation_list st) ->
  for_each step_file st files = Ok st' ->
  Forall (in_split all true) (train_annotation_list st') /\
  Forall (in_split all false) (test_annotation_list st').
Proof.
  induction files as [|f files IH]; intros st st' Hall Htr Hte Hrun;
    simpl in Hrun.
  - by injection Hrun as <-.
  - unfold mbind, result_bind in Hrun.
    destruct (step_file st f) as [st1|] eqn:Hf; [|done].
    unfold file_body in Hf.
    apply (for_each_object_body_split all f) in Hf as [Htr1 Hte1];
      [|apply Hall; by left|done|done|done].
    apply (IH st1 st'); try done. intros; apply Hall; by right.
Qed.

Lemma run_split files train val :
  whole_run files = Ok (train, val) ->
  Forall (in_split files true) train /\ Forall (in_split files false) val.
Proof.
  unfold generate_annotations, mbind, result_bind. intros Hrun.
  destruct (for_each step_file _ files) as [st|] eqn:Hst; [|done].
  injection Hrun as <- <-.
  by apply (for_each_file_body_split files files) in Hst.
Qed.

Lemma run_prefix files1 files2 train val :
  whole_run (files1 ++ files2) = Ok (train, val) ->
  exists train1 val1 train2 val2,
    whole_run files1 = Ok (train1, val1) /\
    train = train1 ++ train2 /\ val = val1 ++ val2.
Proof.
  unfold generate_annotations. rewrite for_each_app.
  unfold mbind, result_bind. intros Hrun.
  destruct (for_each step_file _ files1) as [st1|]; [|done].
  destruct (for_each step_file st1 files2) as [st2|] eqn:H2; [|done].
  injection Hrun as <- <-.
  apply for_each_file_body in H2 as (news & (tr & te & Htr & Hte & _) & _).
  by exists (train_annotation_list st1), (test_annotation_list st1), tr, te.
Qed.

Lemma run_fail_fast files1 files2 e :
  whole_run files1 = Raise e -> whole_run (files1 ++ files2) = Raise e.
Proof.
  unfold generate_annotations. rewrite for_each_app.
  unfold mbind, result_bind.
  by destruct (for_each step_file _ files1).
Qed.

End generator_more.

Lemma getitem_Ok d k v : getitem d k = Ok v -> d !! k = Some v.
Proof. unfold getitem. destruct (d !! k); [by intros [= <-] | done]. Qed.

(** Every record of the train list was created for an object of a file
    whose image name (the file name up to its first dot) is in the
    training set, and every record of the validation list for an object
    of a file whose image name is not. *)
Theorem records_routed_by_train_set
    (category_lookup img_lookup class_colors : gmap string Z)
    (train_set : gset string) (file_list : list xml_file)
    (train val : list annotation) :
  generate_annotations category_lookup img_lookup class_colors train_set
    file_list = Ok (train, val) ->
  Forall (created_in_split category_lookup img_lookup class_colors train_set
            file_list true) train /\
  Forall (created_in_split category_lookup img_lookup class_colors train_set
            file_list false) val.
Proof. apply run_split. Qed.

Lemma records_routed_by_train_set_witness :
  exists train val,
    generate_annotations ex_category_lookup ex_img_lookup ex_class_colors
      ex_train_set ex_files = Ok (train, val) /\
    length train = 1%nat /\ length val = 2%nat /\
    Forall (created_in_split ex_category_lookup ex_img_lookup ex_class_colors
              ex_train_set ex_files true) train.
Proof.
  eexists _, _. split; [vm_compute; reflexivity|].
  split; [reflexivity|]. split; [reflexivity|].
  exact (proj1 (records_routed_by_train_set ex_category_lookup ex_img_lookup
                  ex_class_colors ex_train_set ex_files _ _ eq_refl)).
Defined.



(** When the segmentation arrays of the input are well-formed, the
    segmentation of every record decodes to a binary mask of the recorded
    size whose number of foreground pixels is the record's area; the area
    is the sum of the counts at the odd positions, and the counts add up
    to the product of the two entries of the size. *)
Theorem record_segmentation_consistent
    (category_lookup img_lookup class_colors : gmap string Z)
    (train_set : gset string) (file_list : list xml_file)
    (train val : list annotation) (r : annotation) :
  (forall f, In f file_list -> wf_array (seg_array f)) ->
  generate_annotations category_lookup img_lookup class_colors train_set
    file_list = Ok (train, val) ->
  In r (train ++ val) ->
  exists m,
    rle_decode (ann_segmentation r) = Some m /\
    wf_array m /\ binary m /\
    size (ann_segmentation r) = [height m; width m] /\
    count_true m = ann_area r /\
    ann_area r = foreground_sum false (counts (ann_segmentation r)) /\
    sum_list (counts (ann_segmentation r)) = (height m * width m)%nat.
Proof.
  intros Hwf Hrun Hr.
  destruct (generate_annotations_trace _ _ _ _ _ _ _ Hrun)
    as (gen & Hil & Hgen & _).
  apply (Permutation_in _ (interleaving_Permutation _ _ _ Hil)) in Hr.
  destruct (Forall2_In_r _ _ _ _ Hgen Hr) as ([f o] & Hfo & Hcreated).
  unfold kept_objects in Hfo. apply in_flat_map in Hfo as (f' & Hf' & Hfo).
  apply in_map_iff in Hfo as (o' & [= <- <-] & _).
  apply annotation_of_inv in Hcreated. cbv zeta in Hcreated.
  destruct Hcreated
    as (extracted & color & Hext & _ & _ & _ & _ & Hseg & Harea & _).
  simpl in Hext.
  destruct (extract_area_inside_bbox_wf _ _ _ (Hwf f' Hf') Hext) as [Hwfe _].
  pose proof (wf_generate_binary_mask extracted color Hwfe) as Hwfm.
  pose proof (binary_generate_binary_mask extracted color) as Hbin.
  exists (generate_binary_mask extracted color).1.
  rewrite Hseg, Harea.
  split; [by apply rle_decode_encode|]. split; [done|]. split; [done|].
  split; [done|]. split; [symmetry; apply count_nonzero_count_true|].
  split.
  - rewrite <- count_true_foreground_sum by done.
    apply count_nonzero_count_true.
  - rewrite counts_binary_mask_to_rle, sum_list_with_app, length_run_lengths.
    rewrite length_ravel_F by done.
    destruct (leading_zero_spec (ravel_F (generate_binary_mask extracted color).1))
      as [[_ ->] | [_ ->]]; simpl; lia.
Qed.

Lemma record_segmentation_consistent_witness :
  exists train val r m,
    generate_annotations ex_category_lookup ex_img_lookup ex_class_colors
      ex_train_set ex_files = Ok (train, val) /\
    In r (train ++ val) /\
    rle_decode (ann_segmentation r) = Some m /\
    count_true m = ann_area r.
Proof.
  assert (Hwf : forall f, In f ex_files -> wf_array (seg_array f)).
  { intros f [<- | [<- | []]]; (split; [reflexivity | repeat constructor]). }
  destruct (record_segmentation_consistent ex_category_lookup ex_img_lookup
              ex_class_colors ex_train_set ex_files _ _ _ Hwf eq_refl
              (or_intror (or_introl eq_refl)))
    as (m & Hdec & _ & _ & _ & Harea & _).
  eexists _, _, _, m. split; [vm_compute; reflexivity|].
  split; [right; left; reflexivity|]. split; [exact Hdec | exact Harea].
Defined.

(** A key that is missing aborts the run: when some object that is not
    skipped has a name absent from the category lookup or from the class
    colours, or belongs to a file whose image name is absent from the
    image lookup, the run raises and returns no list. *)
Theorem missing_lookup_aborts
    (category_lookup img_lookup class_colors : gmap string Z)
    (train_set : gset string) (file_list : list xml_file)
    (f : xml_file) (o : xml_object) :
  In (f, o) (kept_objects file_list) ->
  category_lookup !! obj_name o = None \/
  class_colors !! obj_name o = None \/
  img_lookup !! img_name_of f = None ->
  exists e,
    generate_annotations category_lookup img_lookup class_colors train_set
      file_list = Raise e.
Proof.
  intros Hfo Hmiss.
  destruct (generate_annotations _ _ _ _ file_list) as [[train val]|e] eqn:Hrun;
    [|by eexists].
  destruct (generate_annotations_trace _ _ _ _ _ _ _ Hrun)
    as (gen & _ & Hgen & _).
  destruct (Forall2_In_l _ _ _ _ Hgen Hfo) as (r & _ & Hcreated).
  apply annotation_of_inv in Hcreated. cbv zeta in Hcreated.
  destruct Hcreated as (? & ? & _ & Hcol & Hcat & Himg & _).
  apply getitem_Ok in Hcol, Hcat, Himg. simpl in *.
  unfold img_name_of in Hmiss. destruct Hmiss as [H | [H | H]]; congruence.
Qed.

Lemma missing_lookup_aborts_witness :
  exists e,
    generate_annotations ex_category_lookup ex_img_lookup ∅ ex_train_set
      ex_files = Raise e.
Proof.
  apply (missing_lookup_aborts ex_category_lookup ex_img_lookup ∅
           ex_train_set ex_files
           (mk_file "a.xml" 4 4
              [ mk_object "note" 0.25 0 0.75 0.5;
                mk_object "brace" 0 0 1 1;
                mk_object "rest" 0 0.5 0.5 0.75 ] ex_seg)
           (mk_object "note" 0.25 0 0.75 0.5));
    [left; reflexivity | right; left; reflexivity].
Defined.

Lemma for_each_ext {S A} (body body' : S -> A -> result S) l :
  (forall st x, body st x = body' st x) ->
  forall st, for_each body st l = for_each body' st l.
Proof.
  intros Hext. induction l as [|x l IH]; intros st; simpl; [done|].
  rewrite Hext. unfold mbind, result_bind.
  destruct (body' st x); [apply IH | done].
Qed.

Lemma object_body_lookups_ext
    (category_lookup category_lookup' img_lookup : gmap string Z)
    (class_colors class_colors' : gmap string Z) (train_set : gset string)
    img_name seg w h st obj :
  (forall k, k <> "brace" -> category_lookup !! k = category_lookup' !! k) ->
  (forall k, k <> "brace" -> class_colors !! k = class_colors' !! k) ->
  object_body category_lookup img_lookup class_colors train_set
    img_name seg w h st obj =
  object_body category_lookup' img_lookup class_colors' train_set
    img_name seg w h st obj.
Proof.
  intros Hcat Hcol. unfold object_body, getitem.
  destruct (decide (obj_name obj ≠ "brace")) as [Hname|Hname]; [|done].
  by rewrite (Hcat _ Hname), (Hcol _ Hname).
Qed.

(** The lookups are never consulted for the name "brace": two category
    lookups, and two class colour lookups, that agree on every name other
    than "brace" give the same run on the same files, be it the lists
    returned or the exception raised. *)
Theorem brace_never_looked_up
    (category_lookup category_lookup' img_lookup : gmap string Z)
    (class_colors class_colors' : gmap string Z)
    (train_set : gset string) (file_list : list xml_file) :
  (forall k, k <> "brace" -> category_lookup !! k = category_lookup' !! k) ->
  (forall k, k <> "brace" -> class_colors !! k = class_colors' !! k) ->
  generate_annotations category_lookup img_lookup class_colors train_set
    file_list =
  generate_annotations category_lookup' img_lookup class_colors' train_set
    file_list.
Proof.
  intros Hcat Hcol. unfold generate_annotations. f_equal.
  apply for_each_ext. intros st f. unfold file_body.
  apply for_each_ext. intros st' obj.
  by apply object_body_lookups_ext.
Qed.

Lemma brace_never_looked_up_witness :
  generate_annotations ex_category_lookup ex_img_lookup ex_class_colors
    ex_train_set ex_files =
  generate_annotations (<["brace" := 99]> ex_category_lookup) ex_img_lookup
    (delete "brace" ex_class_colors) ex_train_set ex_files.
Proof.
  apply brace_never_looked_up.
  - intros k Hk. symmetry. by apply lookup_insert_ne.
  - intros k Hk. symmetry. by apply lookup_delete_ne.
Defined.

(** The lists only grow: the lists returned for a list of files followed
    by further files begin with the lists returned for the first files
    alone, which the later files leave as they are. *)
Theorem earlier_records_kept
    (category_lookup img_lookup class_colors : gmap string Z)
    (train_set : gset string) (files1 files2 : list xml_file)
    (train val : list annotation) :
  generate_annotations category_lookup img_lookup class_colors train_set
    (files1 ++ files2) = Ok (train, val) ->
  exists train1 val1 train2 val2,
    generate_annotations category_lookup img_lookup class_colors train_set
      files1 = Ok (train1, val1) /\
    train = train1 ++ train2 /\ val = val1 ++ val2.
Proof. apply run_prefix. Qed.

Lemma earlier_records_kept_witness :
  exists train1 val1 train2 val2,
    generate_annotations ex_category_lookup ex_img_lookup ex_class_colors
      ex_train_set (firstn 1 ex_files) = Ok (train1, val1) /\
    length (train1 ++ train2) = 1%nat /\ length (val1 ++ val2) = 2%nat.
Proof.
  destruct (earlier_records_kept ex_category_lookup ex_img_lookup
              ex_class_colors ex_train_set (firstn 1 ex_files)
              (skipn 1 ex_files) _ _ eq_refl)
    as (train1 & val1 & train2 & val2 & Hrun & Htr & Hval).
  exists train1, val1, train2, val2.
  split; [exact Hrun|]. by rewrite <- Htr, <- Hval.
Defined.

(** The run stops at the first exception: when the run on a list of files
    raises, the run on that list followed by any further files raises the
    same exception. *)
Theorem exception_aborts_run
    (category_lookup img_lookup class_colors : gmap string Z)
    (train_set : gset string) (files1 files2 : list xml_file) (e : exn) :
  generate_annotations category_lookup img_lookup class_colors train_set
    files1 = Raise e ->
  generate_annotations category_lookup img_lookup class_colors train_set
    (files1 ++ files2) = Raise e.
Proof. apply run_fail_fast. Qed.

Lemma exception_aborts_run_witness :
  generate_annotations ex_category_lookup ∅ ex_class_colors ex_train_set
    (firstn 1 ex_files ++ skipn 1 ex_files) = Raise (KeyError "a").
Proof.
  apply exception_aborts_run. vm_compute. reflexivity.
Defined.

(** ** The image name of a file *)

Lemma split_head_spec sep s :
  (exists rest, s = split_head sep s +:+ rest /\
                (rest = "" \/ exists rest', rest = String sep rest')) /\
  ~ In sep (list_ascii_of_string (split_head sep s)).
Proof.
  induction s as [|c s [(rest & Hs & Hrest) Hno]]; simpl.
  - split; [exists ""; split; [done | by left] | tauto].
  - destruct (Ascii.eqb_spec c sep) as [->|Hc]; simpl.
    + split; [|tauto]. exists (String sep s). split; [done|]. right. by eexists.
    + split.
      * exists rest. split; [|done].
        change (String c s = String c (split_head sep s +:+ rest)).
        by rewrite <- Hs.
      * intros [? | ?]; [done | tauto].
Qed.

(** The image name is the part of the file name before its first dot: it
    holds no dot, and the file name is the image name alone or the image
    name followed by a dot and the rest. Two file names that agree up to
    the first dot give the same image name. *)
Theorem img_name_of_spec (f : xml_file) :
  (exists rest,
     file_name f = img_name_of f +:+ rest /\
     (rest = "" \/ exists rest', rest = String "." rest')) /\
  ~ In "."%char (list_ascii_of_string (img_name_of f)) /\
  (forall g rest,
     ~ In "."%char (list_ascii_of_string (file_name g)) ->
     file_name f = file_name g +:+ String "." rest ->
     img_name_of f = file_name g).
Proof.
  unfold img_name_of.
  destruct (split_head_spec "." (file_name f)) as [Hsplit Hno].
  split; [done|]. split; [done|].
  intros g rest Hg ->. clear Hsplit Hno.
  induction (file_name g) as [|c s IH]; simpl in *; [done|].
  destruct (Ascii.eqb_spec c ".") as [->|Hc]; [tauto|].
  f_equal. apply IH. tauto.
Qed.

(** ** Encoding what was decoded *)

Lemma groupby_repeat_app v n rest :
  hd_error rest <> Some v ->
  groupby (repeat v (S n) ++ rest) = (v, repeat v (S n)) :: groupby rest.
Proof.
  intros Hhd. induction n as [|n IH].
  - simpl. destruct rest as [|y l]; [done|].
    destruct (groupby_cons y l) as (g & rest' & Hg).
    change (groupby (y :: l)) with (groupby (y :: l)) in *.
    rewrite Hg. destruct (Z.eqb_spec v y) as [->|Hvy]; [by simpl in Hhd|done].
  - change (repeat v (S (S n)) ++ rest) with (v :: (repeat v (S n) ++ rest)).
    rewrite groupby_step, IH. by rewrite Z.eqb_refl.
Qed.

Lemma hd_error_replay v c cs :
  (0 < c)%nat -> hd_error (replay v (c :: cs)) = Some v.
Proof. intros Hc. destruct c; [lia | done]. Qed.

Lemma run_lengths_replay cs : forall v,
  Forall (fun k => (0 < k)%nat) cs -> run_lengths (replay v cs) = cs.
Proof.
  unfold run_lengths.
  induction cs as [|c cs IH]; intros v Hpos; [done|].
  inversion Hpos as [|? ? Hc Hcs]; subst.
  destruct c as [|n]; [lia|]. cbn [replay].
  rewrite groupby_repeat_app.
  - simpl. rewrite repeat_length. f_equal. by apply IH.
  - destruct cs as [|c' cs']; [done|].
    inversion Hcs; subst. rewrite hd_error_replay by done.
    intros [= ?]. lia.
Qed.

Lemma length_replay cs : forall v, length (replay v cs) = sum_list cs.
Proof.
  induction cs as [|c cs IH]; intros v; simpl; [done|].
  by rewrite length_app, repeat_length, IH.
Qed.

Lemma ravel_unravel_F h w flat :
  length flat = (h * w)%nat -> ravel_F (unravel_F h w flat) = flat.
Proof.
  intros Hlen. unfold ravel_F, unravel_F, width. simpl.
  set (rows := map (fun i => map (fun j => nth (j * h + i) flat 0) (seq 0 w))
                   (seq 0 h)).
  assert (Hcol : forall j, (j < w)%nat ->
            column j rows = map (fun i => nth (j * h + i) flat 0) (seq 0 h)).
  { intros j Hj. unfold column, rows. rewrite flat_map_concat_map, map_map.
    rewrite <- flat_map_concat_map. clear rows.
    induction (seq 0 h) as [|i l IH]; simpl; [done|].
    rewrite nth_error_map, nth_error_seq.
    apply Nat.ltb_lt in Hj as ->. simpl. by rewrite IH. }
  apply (nth_ext _ _ 0 0).
  - rewrite (length_flat_map_seq _ h).
    + lia.
    + intros j Hj. rewrite Hcol by lia. by rewrite length_map, length_seq.
  - rewrite (length_flat_map_seq _ h).
    2: { intros j Hj. rewrite Hcol by lia. by rewrite length_map, length_seq. }
    intros k Hk.
    assert (Hh : (0 < h)%nat) by lia.
    pose proof (Nat.div_mod_eq k h) as Hdiv.
    pose proof (Nat.mod_upper_bound k h) as Hmod.
    assert (Hj : (k / h < w)%nat) by (apply Nat.Div0.div_lt_upper_bound; lia).
    replace k with (k / h * h + k mod h)%nat at 1 by lia.
    rewrite (nth_flat_map_seq _ h w 0 (k / h) (k mod h) 0); try lia.
    + simpl. rewrite Hcol by done.
      rewrite (nth_indep _ 0 (nth (k / h * h + 0) flat 0))
        by (rewrite length_map, length_seq; lia).
      rewrite (map_nth (fun i => nth (k / h * h + i) flat 0)), seq_nth by lia.
      f_equal. lia.
    + intros j Hjw. rewrite Hcol by lia. by rewrite length_map, length_seq.
Qed.

Lemma canonical_counts cs :
  canonical cs ->
  leading_zero (replay 0 cs) ++ run_lengths (replay 0 cs) = cs.
Proof.
  destruct cs as [|c cs]; [done|]. intros [Hpos Hzero].
  destruct c as [|n].
  - destruct cs as [|c' cs']; [by destruct Hzero|].
    inversion Hpos as [|? ? Hc' _]; subst.
    change (replay 0 (0%nat :: c' :: cs')) with (replay 1 (c' :: cs')).
    rewrite run_lengths_replay by done.
    destruct c' as [|n']; [lia | done].
  - rewrite run_lengths_replay by (constructor; [lia | done]). done.
Qed.

(** Encoding what was decoded gives the counts back: for counts the
    encoder can produce (no zero but possibly a first one, which is then
    followed by another count) that add up to [h * w], the encoding of
    the mask decoded from them over an [h] x [w] grid is these counts
    with size [[h, w]]. With the round trip the other way, the encoder
    and the decoder are inverse to each other. *)
Theorem encode_decoded_counts (cs : list nat) (h w : nat) (m : ndarray Z) :
  canonical cs -> sum_list cs = (h * w)%nat ->
  rle_decode {| counts := cs; size := [h; w] |} = Some m ->
  binary_mask_to_rle m = {| counts := cs; size := [h; w] |}.
Proof.
  intros Hcan Hsum [= <-].
  pose proof (counts_binary_mask_to_rle (unravel_F h w (replay 0 cs))) as Hc.
  rewrite ravel_unravel_F in Hc by (by rewrite length_replay).
  rewrite canonical_counts in Hc by done.
  unfold binary_mask_to_rle in *. simpl in Hc. by rewrite Hc.
Qed.

Lemma encode_decoded_counts_witness :
  exists m,
    rle_decode {| counts := [0; 2; 3; 1]%nat; size := [2; 3]%nat |} = Some m /\
    binary_mask_to_rle m = {| counts := [0; 2; 3; 1]%nat; size := [2; 3]%nat |}.
Proof.
  eexists. split; [reflexivity|].
  apply encode_decoded_counts;
    [ split; [repeat constructor | discriminate] | reflexivity | reflexivity ].
Defined.
